(** * ma.node: identity wrappers, system tags and the systems factory

    A shallow embedding of [python/ma/node.py].  The module wraps nodes of an
    external scene graph (Maya) in [str] subclasses whose content is the
    node's UUID:

    - [Node]: identity wrapper ([__new__], [__eq__], [__hash__], [create],
      [delete], [export], [rename], the [name]/[namespace]/[nodename]
      properties and the liveness-checking [fn] property);
    - [System]: a [Node] whose external node carries the ['system_type']
      attribute;
    - [Factory]: a [dict] from tag strings to classes.

    Python objects are records, classes are values of [pyclass], exceptions
    are values of [exn], and every method that talks to the scene is a
    computation in the monad [M]: a function from the scene to an outcome
    (a value or a raised exception) and the scene it leaves behind.  The
    scene survives a raised exception, as it does in the host. *)

From stdpp Require Import gmap strings list stringmap.
From Stdlib Require Import ZArith Ascii.

(** ** Python values *)

(** The built-in exception classes that occur in the module or in its
    specification. *)
Inductive exc_class :=
  | RuntimeError
  | ReferenceError
  | IndexError
  | TypeError
  | ValueError
  | AttributeError.

Record exn := Exn { exc_type : exc_class; exc_msg : string }.

#[global] Instance exc_class_eq_dec : EqDecision exc_class.
Proof. solve_decision. Defined.
#[global] Instance exn_eq_dec : EqDecision exn.
Proof. solve_decision. Defined.

(** Keyword-argument values handed to [cmds.file]. *)
Inductive pyval :=
  | PInt (z : Z)
  | PStr (s : string)
  | PBool (b : bool).

#[global] Instance pyval_eq_dec : EqDecision pyval.
Proof. solve_decision. Defined.

(** A class object.  Python compares classes by identity; [cls_id] stands
    for that identity, so two classes may share [__name__] and every class
    attribute and still be different classes.  [_NODETYPE] and
    [DEFAULT_NAME] are the class attributes of [Node], which subclasses may
    override. *)
Record pyclass := PyClass {
  cls_id : nat;
  __name__ : string;
  _NODETYPE : string;
  DEFAULT_NAME : string
}.

#[global] Instance pyclass_eq_dec : EqDecision pyclass.
Proof. solve_decision. Defined.

(** [class Node(str)] and [class System(Node)]: both keep the defaults
    [DEFAULT_NAME = 'grp'] and [_NODETYPE = 'transform']. *)
Definition NodeClass : pyclass :=
  {| cls_id := 0; __name__ := "Node";
     _NODETYPE := "transform"; DEFAULT_NAME := "grp" |}.

Definition System : pyclass :=
  {| cls_id := 1; __name__ := "System";
     _NODETYPE := "transform"; DEFAULT_NAME := "grp" |}.

(** The classes loaded in the process, seen from one class: the class and,
    recursively, what [cls.__subclasses__()] returns for it, in order.  A
    class reachable along two inheritance paths occurs once per path, which
    is how the recursion of [Factory.register] meets it. *)
#[warnings="-register-all"]
Inductive hierarchy :=
  | Loaded (cls : pyclass) (subclasses : list hierarchy).

Definition SYSTEM_TYPE_ATTR_NAME : string := "system_type".

(** ** Strings *)

(** [c in s] for a one-character separator. *)
Fixpoint str_contains (c : ascii) (s : string) : bool :=
  match s with
  | EmptyString => false
  | String a t => bool_decide (a = c) || str_contains c t
  end.

(** [s[-1]], when [s] is not empty. *)
Fixpoint str_last (s : string) : option ascii :=
  match s with
  | EmptyString => None
  | String a EmptyString => Some a
  | String _ t => str_last t
  end.

(** [s.endswith(c)] for a one-character suffix. *)
Definition endswith (c : ascii) (s : string) : bool :=
  bool_decide (str_last s = Some c).

(** [s.rsplit(c, 1)] when [c in s]: the text before and after the last
    occurrence of [c]; [None] when [c] does not occur. *)
Fixpoint rsplit1 (c : ascii) (s : string) : option (string * string) :=
  match s with
  | EmptyString => None
  | String a t =>
      match rsplit1 c t with
      | Some (l, r) => Some (String a l, r)
      | None => if bool_decide (a = c) then Some (EmptyString, t) else None
      end
  end.

(** [s] without the prefix [p], when it starts with it. *)
Fixpoint strip_prefix (p s : string) : option string :=
  match p, s with
  | EmptyString, _ => Some s
  | String a p', String b s' =>
      if bool_decide (a = b) then strip_prefix p' s' else None
  | String _ _, EmptyString => None
  end.

(** The namespace part of a node name: everything before the last [':'],
    empty for a name in the root namespace. *)
Definition namespace_of (name : string) : string :=
  match rsplit1 ":" name with
  | Some (ns, _) => ns
  | None => ""
  end.

(** ** The scene

    Modelled from the spec: the external Scene Graph Service (section 6 of
    the specification), which the module reaches through [maya.cmds] and
    [maya.api.OpenMaya] and whose code is not part of the repository.  A
    scene is the list of every node created so far, the namespaces, the
    selection and the log of the [cmds] calls made.  An [MObject] is the
    position of a node in that list.  A deleted node keeps its record and
    is flagged invalid: that is the state [MObjectHandle.isValid] tells
    apart in [Node.fn].  Node names are unique scene-wide among valid nodes
    when nodes are created and renamed through the service; DAG paths are
    not modelled, so the partial path of a node is its name. *)

Abbreviation MObject := nat.

Record node_rec := NodeRec {
  r_uuid : string;
  r_name : string;
  r_type : string;
  r_dag : bool;
  r_parent : option MObject;
  r_attrs : gmap string string;
  r_valid : bool
}.

(** The [cmds] calls of the module, with the arguments that matter. *)
Inductive call :=
  | Call_ls (obj : string)
  | Call_ls_selection
  | Call_createNode (nodetype name : string) (parent : option string)
  | Call_delete (obj : string)
  | Call_select (obj : string)
  | Call_select_list (objs : list MObject)
  | Call_file (filename : string) (es : bool) (settings : gmap string pyval)
  | Call_rename (obj value : string)
  | Call_namespace_ex (ns : string)
  | Call_namespace_add (ns : string)
  | Call_namespace_mv (src dst : string)
  | Call_namespace_ren (old new : string) (parent : option string)
  | Call_namespace_rm (ns : string) (mnr : bool)
  | Call_namespaceInfo_ls (ns : string)
  | Call_attributeQuery_ex (attr obj : string)
  | Call_addAttr (obj ln dt : string)
  | Call_setAttr (plug value : string)
  | Call_getAttr (plug : string).

Record Scene := MkScene {
  nodes : list node_rec;
  namespaces : list string;
  selection : list MObject;
  calls : list call
}.

Definition empty_scene : Scene :=
  {| nodes := []; namespaces := []; selection := []; calls := [] |}.

Definition with_nodes (f : list node_rec → list node_rec) (s : Scene) : Scene :=
  {| nodes := f (nodes s); namespaces := namespaces s;
     selection := selection s; calls := calls s |}.

Definition with_namespaces (f : list string → list string) (s : Scene) : Scene :=
  {| nodes := nodes s; namespaces := f (namespaces s);
     selection := selection s; calls := calls s |}.

Definition with_selection (f : list MObject → list MObject) (s : Scene) : Scene :=
  {| nodes := nodes s; namespaces := namespaces s;
     selection := f (selection s); calls := calls s |}.

Definition with_call (c : call) (s : Scene) : Scene :=
  {| nodes := nodes s; namespaces := namespaces s;
     selection := selection s; calls := calls s ++ [c] |}.

Definition set_name (name : string) (r : node_rec) : node_rec :=
  {| r_uuid := r_uuid r; r_name := name; r_type := r_type r; r_dag := r_dag r;
     r_parent := r_parent r; r_attrs := r_attrs r; r_valid := r_valid r |}.

Definition set_attr (attr value : string) (r : node_rec) : node_rec :=
  {| r_uuid := r_uuid r; r_name := r_name r; r_type := r_type r;
     r_dag := r_dag r; r_parent := r_parent r;
     r_attrs := <[attr := value]> (r_attrs r); r_valid := r_valid r |}.

Definition invalidate (r : node_rec) : node_rec :=
  {| r_uuid := r_uuid r; r_name := r_name r; r_type := r_type r;
     r_dag := r_dag r; r_parent := r_parent r; r_attrs := r_attrs r;
     r_valid := false |}.

(** ** Computations over the scene *)

Inductive outcome (A : Type) :=
  | Return (a : A)
  | Raise (e : exn).
Arguments Return {A} a.
Arguments Raise {A} e.

Definition M (A : Type) : Type := Scene → outcome A * Scene.

#[global] Instance M_ret : MRet M := λ A a s, (Return a, s).

#[global] Instance M_bind : MBind M := λ A B k m s,
  match m s with
  | (Return a, s') => k a s'
  | (Raise e, s') => (Raise e, s')
  end.

Definition raise {A} (e : exn) : M A := λ s, (Raise e, s).

Definition get_scene : M Scene := λ s, (Return s, s).

Definition modify (f : Scene → Scene) : M unit := λ s, (Return (), f s).

(** [try: body finally: fin]: [fin] runs on every exit of [body]; the
    outcome is that of [body] unless [fin] itself raises. *)
Definition try_finally {A} (body : M A) (fin : M unit) : M A := λ s,
  match body s with
  | (r, s1) =>
      match fin s1 with
      | (Return _, s2) => (r, s2)
      | (Raise e, s2) => (Raise e, s2)
      end
  end.

(** What a computation returns and the scene it leaves, from a scene. *)
Definition result {A} (m : M A) (s : Scene) : outcome A := fst (m s).
Definition final {A} (m : M A) (s : Scene) : Scene := snd (m s).

(** An error reported by the host. *)
Definition maya_error (detail : string) : exn :=
  Exn RuntimeError ("Maya command error: " +:+ detail).

(** [xs[0]]. *)
Definition py_index0 {A} (xs : list A) : M A :=
  match xs with
  | x :: _ => mret x
  | [] => raise (Exn IndexError "list index out of range")
  end.

(** ** The service: resolving names *)

(** A valid node answers to its name and to its UUID. *)
Definition node_matches (key : string) (r : node_rec) : bool :=
  r_valid r && (bool_decide (r_name r = key) || bool_decide (r_uuid r = key)).

Definition find_node (key : string) (s : Scene) : option (MObject * node_rec) :=
  list_find (λ r, node_matches key r = true) (nodes s).

(** Modelled from the spec: [name_to_node], imported from the package's
    [__init__] and absent from the sources; [resolve(name_or_id) ->
    external-node-ref | null], "name/identity to live reference". *)
Definition name_to_node (value : string) : M (option MObject) := λ s,
  (Return (fst <$> find_node value s), s).

(** How a [cmds] call finds the node it is given by name. *)
Definition lookup_node (key : string) : M (MObject * node_rec) := λ s,
  match find_node key s with
  | Some p => (Return p, s)
  | None => (Raise (maya_error ("No object matches name: " +:+ key)), s)
  end.

(** The names of the valid nodes and the UUIDs ever issued: what a new name
    or UUID has to differ from. *)
Definition used (s : Scene) : gset string :=
  list_to_set (r_name <$> filter (λ r, r_valid r = true) (nodes s))
  ∪ list_to_set (r_uuid <$> nodes s).

(** ** The service: [maya.cmds] *)

Definition log_call (c : call) : M unit := modify (with_call c).

(** Modelled from the spec: [resolve(name_or_id)], as [cmds.ls(obj)]
    answers it: the names of the nodes [obj] designates. *)
Definition cmds_ls (obj : string) : M (list string) :=
  log_call (Call_ls obj);;
  s ← get_scene;
  mret (r_name <$> filter (λ r, node_matches obj r = true) (nodes s)).

Definition is_dag_nodetype (t : string) : bool :=
  bool_decide (t ∈ ["transform"; "joint"; "locator"; "camera"; "mesh"]).

Definition add_namespace (ns : string) (l : list string) : list string :=
  if bool_decide (ns = "" ∨ ns ∈ l) then l else l ++ [ns].

(** Modelled from the spec: [create_node(type, name?, parent?)], called as
    [cmds.createNode(nodetype, name=name, parent=parent, ss=1)]: a new node
    with a new UUID; a name clash is resolved with an index at the end; the
    namespace of the name is created when missing; the selection is left
    alone ([ss=1]).  Returns the name of the node. *)
Definition cmds_createNode (nodetype name : string) (parent : option string)
    : M string :=
  log_call (Call_createNode nodetype name parent);;
  par ← match parent with
        | Some p => p' ← lookup_node p; mret (Some (fst p'))
        | None => mret None
        end;
  s ← get_scene;
  let uuid := fresh_string_of_set "uuid-" (used s) in
  let name' := fresh_string_of_set name ({[uuid]} ∪ used s) in
  modify (with_nodes (λ l, l ++ [
    {| r_uuid := uuid; r_name := name'; r_type := nodetype;
       r_dag := is_dag_nodetype nodetype; r_parent := par;
       r_attrs := ∅; r_valid := true |}]));;
  modify (with_namespaces (add_namespace (namespace_of name')));;
  mret name'.

(** [j] is [target] or below it in the hierarchy. *)
Fixpoint reaches (l : list node_rec) (fuel : nat) (target j : MObject) : bool :=
  bool_decide (j = target) ||
  match fuel with
  | 0 => false
  | S fuel' =>
      match l !! j with
      | Some r =>
          match r_parent r with
          | Some p => reaches l fuel' target p
          | None => false
          end
      | None => false
      end
  end.

(** Modelled from the spec: [delete_node(ref)], called as
    [cmds.delete(obj)]: the node and what hangs below it stop being valid
    and leave the selection. *)
Definition cmds_delete (obj : string) : M unit :=
  log_call (Call_delete obj);;
  p ← lookup_node obj;
  s ← get_scene;
  let gone j := reaches (nodes s) (length (nodes s)) (fst p) j in
  modify (with_nodes (imap (λ j r, if gone j then invalidate r else r)));;
  modify (with_selection (filter (λ j, gone j = false))).

(** Modelled from the spec: [select(ref)], called as [cmds.select(obj)]:
    the selection becomes that node. *)
Definition cmds_select (obj : string) : M unit :=
  log_call (Call_select obj);;
  p ← lookup_node obj;
  modify (with_selection (λ _, [fst p])).

(** Modelled from the spec: [get_selection()] and
    [set_selection(sequence)], which [KeepSel] needs. *)
Definition get_selection : M (list MObject) :=
  log_call Call_ls_selection;;
  s ← get_scene;
  mret (selection s).

Definition set_selection (objs : list MObject) : M unit :=
  log_call (Call_select_list objs);;
  modify (with_selection (λ _, objs)).

(** Modelled from the spec: [export_selected(path, options)], called as
    [cmds.file(filename, es=True, **settings)]: writes the selection to
    [filename]; the scene is not changed.  Fails on an empty selection. *)
Definition cmds_file (filename : string) (es : bool)
    (settings : gmap string pyval) : M unit :=
  log_call (Call_file filename es settings);;
  s ← get_scene;
  match selection s with
  | [] => raise (maya_error "Nothing is selected")
  | _ :: _ => mret ()
  end.

(** Modelled from the spec: [rename_node(ref, new_name)], called as
    [cmds.rename(obj, value)]: the node gets the name [value], made unique
    with an index at the end when taken; the namespace of the new name is
    created when missing.  Returns the new name. *)
Definition cmds_rename (obj value : string) : M string :=
  log_call (Call_rename obj value);;
  p ← lookup_node obj;
  if bool_decide (value = "") then
    raise (maya_error "New name has no legal characters")
  else
    s ← get_scene;
    let name' := if bool_decide (value = r_name (snd p)) then value
                 else fresh_string_of_set value (used s) in
    modify (with_nodes (alter (set_name name') (fst p)));;
    modify (with_namespaces (add_namespace (namespace_of name')));;
    mret name'.

(** *** Namespaces *)

Definition ns_prefix (ns : string) : string :=
  if bool_decide (ns = "") then "" else ns +:+ ":".

(** The name of what lives under namespace [src], once moved under [dst];
    other names are kept. *)
Definition move_name (src dst name : string) : string :=
  match strip_prefix (src +:+ ":") name with
  | Some rest => ns_prefix dst +:+ rest
  | None => name
  end.

Definition move_nodes (src dst : string) (l : list node_rec) : list node_rec :=
  (λ r, set_name (move_name src dst (r_name r)) r) <$> l.

(** What a namespace holds: its valid nodes and its child namespaces. *)
Definition namespace_contents (ns : string) (s : Scene) : list string :=
  (r_name <$> filter (λ r, r_valid r = true ∧ namespace_of (r_name r) = ns)
                     (nodes s))
  ++ filter (λ n, namespace_of n = ns) (namespaces s).

Definition require_namespace (ns : string) : M unit :=
  s ← get_scene;
  if bool_decide (ns ∈ namespaces s) then mret ()
  else raise (maya_error ("No namespace matches name: " +:+ ns)).

(** Modelled from the spec: [namespace_exists(ns)], called as
    [cmds.namespace(ex=ns)]. *)
Definition cmds_namespace_ex (ns : string) : M bool :=
  log_call (Call_namespace_ex ns);;
  s ← get_scene;
  mret (bool_decide (ns ∈ namespaces s)).

(** Modelled from the spec: [create_namespace(ns)], called as
    [cmds.namespace(add=ns)]. *)
Definition cmds_namespace_add (ns : string) : M unit :=
  log_call (Call_namespace_add ns);;
  s ← get_scene;
  if bool_decide (ns ∈ namespaces s) then
    raise (maya_error ("Namespace already exists: " +:+ ns))
  else modify (with_namespaces (λ l, l ++ [ns])).

(** Modelled from the spec: [move_namespace(src, dst)], called as
    [cmds.namespace(mv=(src, dst))]: the contents of [src] move to [dst]. *)
Definition cmds_namespace_mv (src dst : string) : M unit :=
  log_call (Call_namespace_mv src dst);;
  require_namespace src;;
  require_namespace dst;;
  modify (with_nodes (move_nodes src dst));;
  modify (with_namespaces (fmap (move_name src dst))).

(** Modelled from the spec: [rename_namespace(old, new, parent)], called as
    [cmds.namespace(ren=(old, new), p=parent)]: namespace [old] becomes
    [new] under [parent] (under the root when no parent is given), with
    everything in it. *)
Definition cmds_namespace_ren (old new : string) (parent : option string)
    : M unit :=
  log_call (Call_namespace_ren old new parent);;
  require_namespace old;;
  match parent with Some p => require_namespace p | None => mret () end;;
  let target := ns_prefix (default "" parent) +:+ new in
  s ← get_scene;
  if bool_decide (target ∈ namespaces s) then
    raise (maya_error ("Namespace already exists: " +:+ target))
  else
    modify (with_nodes (move_nodes old target));;
    modify (with_namespaces (fmap (λ n,
      if bool_decide (n = old) then target else move_name old target n))).

(** Modelled from the spec: [remove_namespace(ns)], called as
    [cmds.namespace(rm=ns)] and [cmds.namespace(rm=ns, mnr=1)]: removes a
    namespace, which has to be empty unless its contents are merged with
    the root ([mnr]). *)
Definition cmds_namespace_rm (ns : string) (mnr : bool) : M unit :=
  log_call (Call_namespace_rm ns mnr);;
  require_namespace ns;;
  s ← get_scene;
  if mnr then
    modify (with_nodes (move_nodes ns ""));;
    modify (with_namespaces (λ l,
      move_name ns "" <$> filter (λ n, n ≠ ns) l))
  else
    match namespace_contents ns s with
    | [] => modify (with_namespaces (filter (λ n, n ≠ ns)))
    | _ :: _ => raise (maya_error ("Namespace is not empty: " +:+ ns))
    end.

(** Modelled from the spec: [list_namespace_contents(ns)], called as
    [cmds.namespaceInfo(ns, ls=1)]. *)
Definition cmds_namespaceInfo_ls (ns : string) : M (list string) :=
  log_call (Call_namespaceInfo_ls ns);;
  require_namespace ns;;
  s ← get_scene;
  mret (namespace_contents ns s).

(** *** Attributes *)

(** A plug is addressed as ["node.attribute"]. *)
Definition parse_plug (plug : string) : M (string * string) :=
  match rsplit1 "." plug with
  | Some p => mret p
  | None => raise (maya_error ("No attribute in: " +:+ plug))
  end.

Definition require_attr (attr : string) (r : node_rec) : M string :=
  match r_attrs r !! attr with
  | Some v => mret v
  | None => raise (maya_error ("No attribute matches name: " +:+ attr))
  end.

(** Modelled from the spec: [has_attribute(ref, attr)], called as
    [cmds.attributeQuery(attr, n=obj, ex=1)]. *)
Definition cmds_attributeQuery_ex (attr obj : string) : M bool :=
  log_call (Call_attributeQuery_ex attr obj);;
  p ← lookup_node obj;
  mret (bool_decide (is_Some (r_attrs (snd p) !! attr))).

(** Modelled from the spec: [add_string_attribute(ref, attr)], called as
    [cmds.addAttr(obj, ln=ln, dt=dt)]: a new attribute, empty. *)
Definition cmds_addAttr (obj ln dt : string) : M unit :=
  log_call (Call_addAttr obj ln dt);;
  p ← lookup_node obj;
  match r_attrs (snd p) !! ln with
  | Some _ => raise (maya_error ("Attribute already exists: " +:+ ln))
  | None => modify (with_nodes (alter (set_attr ln "") (fst p)))
  end.

(** Modelled from the spec: [set_attribute(ref, attr, value)], called as
    [cmds.setAttr(plug, value, type='string')]. *)
Definition cmds_setAttr (plug value : string) : M unit :=
  log_call (Call_setAttr plug value);;
  na ← parse_plug plug;
  p ← lookup_node (fst na);
  require_attr (snd na) (snd p);;
  modify (with_nodes (alter (set_attr (snd na) value) (fst p))).

(** Modelled from the spec: [get_attribute(ref, attr)], called as
    [cmds.getAttr(plug)]. *)
Definition cmds_getAttr (plug : string) : M string :=
  log_call (Call_getAttr plug);;
  na ← parse_plug plug;
  p ← lookup_node (fst na);
  require_attr (snd na) (snd p).

(** ** The service: [maya.api.OpenMaya] *)

(** A function set attached to an object: [MFnDagNode] or the more general
    [MFnDependencyNode]. *)
Inductive MFn :=
  | MFnDagNode (obj : MObject)
  | MFnDependencyNode (obj : MObject).

Definition fn_object (fn : MFn) : MObject :=
  match fn with MFnDagNode o | MFnDependencyNode o => o end.

(** Reading through an object that is not in the scene fails. *)
Definition om_read {A} (o : MObject) (f : node_rec → A) : M A := λ s,
  match nodes s !! o with
  | Some r => (Return (f r), s)
  | None =>
      (Raise (maya_error "(kInvalidParameter): Object does not exist"), s)
  end.

(** Modelled from the spec: the liveness check of the service,
    [om.MObjectHandle(o).isValid()]. *)
Definition MObjectHandle_isValid (o : MObject) : M bool := λ s,
  (Return (from_option r_valid false (nodes s !! o)), s).

(** Modelled from the spec: [om.MFnDagNode().hasObj(o)], whether the node
    is of a kind the DAG function set takes. *)
Definition MFnDagNode_hasObj (o : MObject) : M bool := λ s,
  (Return (from_option r_dag false (nodes s !! o)), s).

(** Modelled from the spec: attaching a function set, [fn.setObject(o)] and
    [om.MFnDependencyNode(o)]. *)
Definition fn_setObject (o : MObject) : M unit := om_read o (λ _, ()).

(** Modelled from the spec: the persistent identifier of the node,
    [fn.uuid()], as a string. *)
Definition fn_uuid (fn : MFn) : M string := om_read (fn_object fn) r_uuid.

(** Modelled from the spec: [get_name(ref)], read as
    [fn.partialPathName()]. *)
Definition fn_partialPathName (fn : MFn) : M string :=
  om_read (fn_object fn) r_name.

(** Modelled from the spec: [get_name(ref)], read as [fn.name()]. *)
Definition fn_name (fn : MFn) : M string := om_read (fn_object fn) r_name.

(** Modelled from the spec: [get_namespace(ref)], read as [fn.namespace]. *)
Definition fn_namespace (fn : MFn) : M string :=
  om_read (fn_object fn) (λ r, namespace_of (r_name r)).

(** Modelled from the spec: [has_attribute(ref, attr)], read as
    [fn.hasAttribute(attr)]. *)
Definition fn_hasAttribute (fn : MFn) (attr : string) : M bool :=
  om_read (fn_object fn) (λ r, bool_decide (is_Some (r_attrs r !! attr))).

(** Modelled from the spec: [get_attribute(ref, attr)], read as
    [fn.findPlug(attr, True).asString()]. *)
Definition fn_findPlug_asString (fn : MFn) (attr : string) : M string :=
  r ← om_read (fn_object fn) id;
  require_attr attr r.

(** Modelled from the spec: [KeepSel], the decorator imported from the
    package's [__init__] and absent from the sources; "the current external
    selection state is saved before and restored after (guaranteed on all
    exit paths)". *)
Definition KeepSel {A} (body : M A) : M A :=
  sel ← get_selection;
  try_finally body (set_selection sel).

(** ** [def add_system_attr(obj, value)] *)

Definition add_system_attr (obj value : string) : M unit :=
  ex ← cmds_attributeQuery_ex SYSTEM_TYPE_ATTR_NAME obj;
  (if negb ex then cmds_addAttr obj SYSTEM_TYPE_ATTR_NAME "string"
   else mret ());;
  cmds_setAttr (obj +:+ "." +:+ SYSTEM_TYPE_ATTR_NAME) value.

(** ** [class Node(str)] *)

(** An instance: its class, its [str] value (the UUID) and the two
    attributes [__new__] sets. *)
Record Node := MkNode {
  __class__ : pyclass;
  uuid : string;
  dependnode : MObject;
  _fn : MFn
}.

(** What a constructor or the factory is given: [str | om.MObject]. *)
Inductive ref :=
  | RefStr (value : string)
  | RefObj (value : MObject).

(** The first statement of [Node.__new__] and of
    [Factory.get_system_class], up to the test [if value:]: a string goes
    through [name_to_node], whose [None] is falsy; an [om.MObject] is taken
    as it is and, being an object, is truthy. *)
Definition resolve (value : ref) : M (option MObject) :=
  match value with
  | RefStr v => name_to_node v
  | RefObj o => mret (Some o)
  end.

(** [Node.__new__(cls, value)]; [None] is Python's [None], returned when
    the [if value:] branch is not taken. *)
Definition Node_new (cls : pyclass) (value : ref) : M (option Node) :=
  value ← resolve value;
  match value with
  | Some value =>
      dag ← MFnDagNode_hasObj value;
      fn ← (if dag : bool then fn_setObject value;; mret (MFnDagNode value)
            else fn_setObject value;; mret (MFnDependencyNode value));
      u ← fn_uuid fn;
      mret (Some {| __class__ := cls; uuid := u;
                    dependnode := value; _fn := fn |})
  | None => mret None
  end.

(** [Node.__eq__]: [self.__class__ == other.__class__ and
    super().__eq__(other)], the latter being [str.__eq__]. *)
Definition Node_eq (self other : Node) : bool :=
  bool_decide (__class__ self = __class__ other)
  && bool_decide (uuid self = uuid other).

Section hashing.
(** Python's hash of a [str], fixed for the life of the process. *)
Variable str_hash : string → Z.

(** [Node.__hash__]: [hash(str(self))]. *)
Definition Node_hash (self : Node) : Z := str_hash (uuid self).
End hashing.

(** The error [Node.fn] raises. *)
Definition stale_error (self : Node) : exn :=
  Exn RuntimeError
    ("Invalid depend node. " +:+ __name__ (__class__ self)
     +:+ "(" +:+ uuid self +:+ ") not found").

(** The [fn] property. *)
Definition Node_fn (self : Node) : M MFn :=
  valid ← MObjectHandle_isValid (dependnode self);
  if valid : bool then mret (_fn self) else raise (stale_error self).

(** [Node.get_name], the getter of [name]. *)
Definition Node_get_name (self : Node) : M string :=
  fn ← Node_fn self;
  match fn with
  | MFnDagNode _ => fn_partialPathName fn
  | MFnDependencyNode _ => fn_name fn
  end.

(** [Node.__repr__] *)
Definition Node_repr (self : Node) : M string :=
  name ← Node_get_name self;
  mret (__name__ (__class__ self) +:+ "('" +:+ name +:+ "')").

(** The getter of [namespace]. *)
Definition Node_namespace (self : Node) : M string :=
  fn ← Node_fn self;
  fn_namespace fn.

(** The getter of [nodename]. *)
Definition Node_nodename (self : Node) : M string :=
  fn ← Node_fn self;
  fn_name fn.

(** The setter of [namespace].  [rsplit1 ":" value] is [Some] exactly when
    [':' in value]. *)
Definition Node_set_namespace (self : Node) (value : string) : M unit :=
  ns ← Node_namespace self;
  if bool_decide (ns ≠ "") then
    if bool_decide (value ≠ "") then
      ex ← cmds_namespace_ex value;
      if ex : bool then cmds_namespace_mv ns value
      else
        match rsplit1 ":" value with
        | Some (par, value) =>
            ex_par ← cmds_namespace_ex par;
            (if negb ex_par then cmds_namespace_add par else mret ());;
            ns' ← Node_namespace self;
            cmds_namespace_ren ns' value (Some par)
        | None =>
            ns' ← Node_namespace self;
            cmds_namespace_ren ns' value None
        end
    else cmds_namespace_rm ns true
  else mret ().

(** [Node.rename], the setter of [name]. *)
Definition Node_rename (self : Node) (value : string) : M unit :=
  name ← Node_get_name self;
  (if str_contains ":" name then
     match rsplit1 ":" value with
     | Some (ns, _) => Node_set_namespace self ns
     | None => Node_set_namespace self ""
     end
   else mret ());;
  value ← match str_last value with
          | Some c =>
              mret (if bool_decide (c = ":"%char)
                    then value +:+ DEFAULT_NAME (__class__ self) else value)
          | None => raise (Exn IndexError "string index out of range")
          end;
  name ← Node_get_name self;
  cmds_rename name value;;
  mret ().

(** The name [Node.create] asks the host for: [name or cls._NODETYPE], with
    [cls.DEFAULT_NAME] appended when it ends with [':']. *)
Definition create_name (cls : pyclass) (name : option string) : string :=
  let name := match name with
              | Some n => if bool_decide (n = "") then _NODETYPE cls else n
              | None => _NODETYPE cls
              end in
  if endswith ":" name then name +:+ DEFAULT_NAME cls else name.

(** [Node.create(cls, name, parent)].  [cls(root)] is [Node.__new__], so the
    result is an instance or [None]. *)
Definition Node_create (cls : pyclass) (name parent : option string)
    : M (option Node) :=
  parent ← match parent with
           | Some p => l ← cmds_ls p; p0 ← py_index0 l; mret (Some p0)
           | None => mret None
           end;
  root ← cmds_createNode (_NODETYPE cls) (create_name cls name) parent;
  Node_new cls (RefStr root).

(** [Node.deserialize(cls, name, parent)] *)
Definition Node_deserialize (cls : pyclass) (name parent : option string)
    : M (option Node) :=
  Node_create cls name parent.

(** [Node.delete] *)
Definition Node_delete (self : Node) : M unit :=
  ns ← Node_namespace self;
  node_repr ← Node_repr self;
  name ← Node_get_name self;
  cmds_delete name;;
  if bool_decide (ns ≠ "") then
    contents ← cmds_namespaceInfo_ls ns;
    match contents with
    | [] => cmds_namespace_rm ns false
    | _ :: _ => mret ()
    end
  else mret ().

(** The settings of [Node.export]: [{'pr': 1, 'typ': 'mayaAscii'}] updated
    with the keyword arguments. *)
Definition export_defaults : gmap string pyval :=
  <["pr" := PInt 1]> (<["typ" := PStr "mayaAscii"]> ∅).

Definition export_settings (kwargs : gmap string pyval) : gmap string pyval :=
  kwargs ∪ export_defaults.

(** [Node.export(filename, **kwargs)], decorated with [KeepSel()].  A
    setting named ['es'] collides with the [es=True] of the call. *)
Definition Node_export (self : Node) (filename : string)
    (kwargs : gmap string pyval) : M unit :=
  KeepSel (
    name ← Node_get_name self;
    cmds_select name;;
    let settings := export_settings kwargs in
    (if bool_decide (is_Some (settings !! "es")) then
       raise (Exn TypeError
                "file() got multiple values for keyword argument 'es'")
     else cmds_file filename true settings);;
    node_repr ← Node_repr self;
    mret ()).

(** [Node.serialize] *)
Definition Node_serialize (self : Node) : M (list (string * string)) :=
  node_repr ← Node_repr self;
  mret [("type", __name__ (__class__ self))].

(** ** [class System(Node)] *)

(** [System.create_attributes] *)
Definition System_create_attributes (self : Node) : M unit :=
  name ← Node_get_name self;
  add_system_attr name (__name__ (__class__ self)).

(** [System.create(cls, name, parent)]; calling a method on [None] is an
    [AttributeError]. *)
Definition System_create (cls : pyclass) (name parent : option string)
    : M Node :=
  self ← Node_create cls name parent;
  match self with
  | Some self => System_create_attributes self;; mret self
  | None =>
      raise (Exn AttributeError
               "'NoneType' object has no attribute 'create_attributes'")
  end.

(** The getter and the setter of [type]. *)
Definition System_type (self : Node) : M string :=
  name ← Node_get_name self;
  cmds_getAttr (name +:+ "." +:+ SYSTEM_TYPE_ATTR_NAME).

Definition System_set_type (self : Node) (value : string) : M unit :=
  name ← Node_get_name self;
  cmds_setAttr (name +:+ "." +:+ SYSTEM_TYPE_ATTR_NAME) value.

(** ** [class Factory(dict)]

    The registry is the dictionary itself.  The attribute [fn] is a scratch
    function set that [get_system_class] points at its argument before every
    use; no method reads it from an earlier call, so it is a local value
    here. *)

(** [Factory.register(cls)] *)
Fixpoint register (self : gmap string pyclass) (cls : hierarchy)
    : gmap string pyclass :=
  match cls with
  | Loaded c subclasses =>
      fold_left register subclasses (<[__name__ c := c]> self)
  end.

(** [Factory.__init__(cls)] *)
Definition Factory_init (cls : option hierarchy) : gmap string pyclass :=
  match cls with
  | Some c => register ∅ c
  | None => ∅
  end.

(** [Factory.get_system_class(obj)] *)
Definition get_system_class (self : gmap string pyclass) (obj : ref)
    : M (option pyclass) :=
  obj ← resolve obj;
  match obj with
  | Some obj =>
      fn_setObject obj;;
      let fn := MFnDependencyNode obj in
      has ← fn_hasAttribute fn SYSTEM_TYPE_ATTR_NAME;
      if has : bool then
        tag ← fn_findPlug_asString fn SYSTEM_TYPE_ATTR_NAME;
        mret (Some (default System (self !! tag)))
      else mret None
  | None => mret None
  end.

(** [Factory.get_system(obj)] *)
Definition get_system (self : gmap string pyclass) (obj : ref)
    : M (option Node) :=
  cls ← get_system_class self obj;
  match cls with
  | Some cls => Node_new cls obj
  | None => mret None
  end.

(** [factory = Factory(System)], given the subclasses of [System] loaded
    when the module is imported. *)
Definition factory (loaded : list hierarchy) : gmap string pyclass :=
  Factory_init (Some (Loaded System loaded)).

(** * Vocabulary of the properties *)

(** [maintains I E m]: from a scene where [I] holds, [m] leaves a scene
    where [I] holds, whether it returns or raises, and raises only
    exceptions in [E]. *)
Definition maintains {A} (I : Scene → Prop) (E : exn → Prop) (m : M A) : Prop :=
  ∀ s, I s →
    match m s with
    | (Return _, s') => I s'
    | (Raise e, s') => I s' ∧ E e
    end.

(** A computation that only reads: the scene is left as found. *)
Definition reads {A} (m : M A) : Prop := ∀ s, final m s = s.

(** The classes [Factory.register] meets, in the order it registers them:
    a class, then each of its subclasses with theirs. *)
Fixpoint preorder (h : hierarchy) : list pyclass :=
  match h with
  | Loaded c subclasses => c :: flat_map preorder subclasses
  end.

(** Registering classes one after the other. *)
Definition register_list (self : gmap string pyclass) (l : list pyclass)
    : gmap string pyclass :=
  fold_left (λ reg c, <[__name__ c := c]> reg) l self.

(** The last class of a list that is called [key]. *)
Definition last_named (key : string) (l : list pyclass) : option pyclass :=
  last (filter (λ c, __name__ c = key) l).

(** The node behind an object is valid (it exists and was not deleted). *)
Definition is_valid (s : Scene) (o : MObject) : bool :=
  from_option r_valid false (nodes s !! o).

(** The exceptions that come from the host. *)
Definition host_error (e : exn) : Prop := ∃ detail, e = maya_error detail.

(** What identifies a node for the wrappers: its UUID, the kind of function
    set it takes, its type and its validity. *)
Definition ident (r : node_rec) : string * bool * string * bool :=
  (r_uuid r, r_dag r, r_type r, r_valid r).

(** [keeps s s']: every object of [s] is an object of [s'] with the same
    UUID, kind, type and validity. *)
Definition keeps (s s' : Scene) : Prop :=
  ∀ o r, nodes s !! o = Some r →
    ∃ r', nodes s' !! o = Some r' ∧ ident r' = ident r.

(** Invariants of the scene that no call of the service breaks, deleting
    apart: they survive logging, changes of the selection and of the
    namespaces, renaming, setting attributes and new nodes. *)
Class scene_inv (I : Scene → Prop) : Prop := {
  inv_call c s : I s → I (with_call c s);
  inv_selection f s : I s → I (with_selection f s);
  inv_namespaces f s : I s → I (with_namespaces f s);
  inv_rename_all f s :
    I s → I (with_nodes (fmap (λ r, set_name (f r) r)) s);
  inv_rename name o s : I s → I (with_nodes (alter (set_name name) o) s);
  inv_set_attr attr value o s :
    I s → I (with_nodes (alter (set_attr attr value) o) s);
  inv_append r s : I s → I (with_nodes (λ l, l ++ [r]) s)
}.

(** [n] is the wrapper [Node.__new__] builds in [s] around its own object. *)
Definition bound (n : Node) (s : Scene) : Prop :=
  Node_new (__class__ n) (RefObj (dependnode n)) s = (Return (Some n), s).

(** [raises_only P E m]: from a scene where [P] holds, [m] raises only
    exceptions in [E]. *)
Definition raises_only {A} (P : Scene → Prop) (E : exn → Prop) (m : M A)
    : Prop :=
  ∀ s, P s → ∀ e, result m s = Raise e → E e.

(** ** Scenes of the scenarios *)

(** Scenario A: a [System] called "duck" in an empty scene. *)
Definition duck_scene : Scene :=
  final (System_create System (Some "duck") None) empty_scene.

Definition duck : Node :=
  {| __class__ := System; uuid := "uuid-";
     dependnode := 0; _fn := MFnDagNode 0 |}.

(** Scenario D: the scene after [duck.delete()]. *)
Definition deleted_scene : Scene := final (Node_delete duck) duck_scene.

(** The record [cmds.createNode] adds to the scene, and the scene after. *)
Definition created (nodetype name : string) (par : option MObject)
    (s : Scene) : node_rec :=
  let uuid := fresh_string_of_set "uuid-" (used s) in
  {| r_uuid := uuid;
     r_name := fresh_string_of_set name ({[uuid]} ∪ used s);
     r_type := nodetype; r_dag := is_dag_nodetype nodetype;
     r_parent := par; r_attrs := ∅; r_valid := true |}.

(** The object a parent designates, when there is one to find. *)
Definition parent_object (parent : option string) (s : Scene)
    : option (option MObject) :=
  match parent with
  | Some p => (λ x, Some (fst x)) <$> find_node p s
  | None => Some None
  end.

(** [deserialize] on a class of systems: the method is inherited from
    [Node] and calls [cls.create], which is [System.create]. *)
Definition System_deserialize (cls : pyclass) (name parent : option string)
    : M Node :=
  System_create cls name parent.

(** ** Vocabulary of the further properties *)

(** A registry whose every entry sits under the name of its class. *)
Definition keyed_by_name (reg : gmap string pyclass) : Prop :=
  ∀ key c, reg !! key = Some c → __name__ c = key.

(** The wrapper [Node.__new__] builds for class [cls] around object [o]
    whose record is [r]. *)
Definition wrapper (cls : pyclass) (o : MObject) (r : node_rec) : Node :=
  {| __class__ := cls; uuid := r_uuid r; dependnode := o;
     _fn := if r_dag r then MFnDagNode o else MFnDependencyNode o |}.

(** [logs m cs]: whatever it returns or raises, [m] adds the calls [cs],
    and no other, to the log of host calls. *)
Definition logs {A} (m : M A) (cs : list call) : Prop :=
  ∀ s, calls (final m s) = calls s ++ cs.

(** [frames m]: whatever it returns or raises, [m] leaves the nodes and the
    namespaces of the scene as they were. *)
Definition frames {A} (m : M A) : Prop :=
  ∀ s, nodes (final m s) = nodes s ∧ namespaces (final m s) = namespaces s.

(** Scenario B: the scene after renaming "duck" to "ns:duck". *)
Definition ns_scene : Scene := final (Node_rename duck "ns:duck") duck_scene.

(** * Properties *)

(** ** Strings *)

Lemma rsplit1_None c s : rsplit1 c s = None ↔ str_contains c s = false.
Proof.
  induction s as [|a t IH]; simpl; [done|].
  destruct (rsplit1 c t) as [[l r]|].
  - destruct IH as [_ IH]. split; [done|].
    intros [_ H]%orb_false_iff. by specialize (IH H).
  - destruct IH as [IH _]. rewrite (IH eq_refl), orb_false_r.
    by destruct (bool_decide (a = c)).
Qed.

Lemma namespace_of_root name :
  str_contains ":" name = false → namespace_of name = "".
Proof. intros H%rsplit1_None. unfold namespace_of. by rewrite H. Qed.

Lemma rsplit1_app c a b :
  str_contains c b = false → rsplit1 c (a +:+ String c b) = Some (a, b).
Proof.
  intros Hb. induction a as [|x a IH]; simpl.
  - apply rsplit1_None in Hb. rewrite Hb. by rewrite bool_decide_eq_true_2.
  - by rewrite IH.
Qed.

(** ** Running computations *)

Lemma run_bind {A B} (m : M A) (k : A → M B) s :
  (m ≫= k) s =
  match m s with
  | (Return a, s') => k a s'
  | (Raise e, s') => (Raise e, s')
  end.
Proof. reflexivity. Qed.

Lemma run_bind_Return {A B} (m : M A) (k : A → M B) s a s' :
  m s = (Return a, s') → (m ≫= k) s = k a s'.
Proof. intros H. by rewrite run_bind, H. Qed.

Lemma run_bind_Raise {A B} (m : M A) (k : A → M B) s e s' :
  m s = (Raise e, s') → (m ≫= k) s = (Raise e, s').
Proof. intros H. by rewrite run_bind, H. Qed.

Lemma run_ret {A} (a : A) s : mret (M := M) a s = (Return a, s).
Proof. reflexivity. Qed.

Section maintains.
Context (I : Scene → Prop) (E : exn → Prop).

Lemma maintains_ret {A} (a : A) : maintains I E (mret a).
Proof. by intros s Hs. Qed.

Lemma maintains_raise {A} e : E e → maintains I E (raise (A := A) e).
Proof. by intros He s Hs. Qed.

Lemma maintains_bind {A B} (m : M A) (k : A → M B) :
  maintains I E m → (∀ a, maintains I E (k a)) → maintains I E (m ≫= k).
Proof.
  intros Hm Hk s Hs. rewrite run_bind. specialize (Hm s Hs).
  destruct (m s) as [[a|e] s']; [by apply Hk|done].
Qed.

Lemma maintains_modify f :
  (∀ s, I s → I (f s)) → maintains I E (modify f).
Proof. intros Hf s Hs. by apply Hf. Qed.

Lemma maintains_get_scene : maintains I E get_scene.
Proof. by intros s Hs. Qed.

Lemma maintains_try_finally {A} (body : M A) fin :
  maintains I E body → maintains I E fin →
  maintains I E (try_finally body fin).
Proof.
  intros Hb Hf s Hs. unfold try_finally. specialize (Hb s Hs).
  destruct (body s) as [[a|e] s1].
  - specialize (Hf s1 Hb). by destruct (fin s1) as [[[]|e'] s2].
  - destruct Hb as [Hb He]. specialize (Hf s1 Hb).
    by destruct (fin s1) as [[[]|e'] s2].
Qed.
End maintains.

Lemma maintains_weaken {A} (I : Scene → Prop) (E E' : exn → Prop) (m : M A) :
  (∀ e, E e → E' e) → maintains I E m → maintains I E' m.
Proof.
  intros HE Hm s Hs. specialize (Hm s Hs).
  destruct (m s) as [[a|e] s']; [done|]. destruct Hm; split; auto.
Qed.

Lemma reads_ret {A} (a : A) : reads (mret a).
Proof. done. Qed.

Lemma reads_bind {A B} (m : M A) (k : A → M B) :
  reads m → (∀ a, reads (k a)) → reads (m ≫= k).
Proof.
  intros Hm Hk s. unfold final. rewrite run_bind.
  specialize (Hm s). unfold final in Hm.
  destruct (m s) as [[a|e] s']; simpl in Hm; rewrite Hm; [apply Hk|done].
Qed.

(** ** [Node.__eq__] *)

Lemma Node_eq_true n1 n2 :
  Node_eq n1 n2 = true ↔ __class__ n1 = __class__ n2 ∧ uuid n1 = uuid n2.
Proof.
  unfold Node_eq. rewrite andb_true_iff, !bool_decide_eq_true. done.
Qed.

(** C2.  Two nodes are equal exactly when they have the same class and the
    same UUID string; the equality is reflexive, symmetric and transitive,
    and wrappers of different classes around one UUID are not equal. *)
Theorem Node_eq_class_and_identity (n1 n2 n3 : Node) :
  (Node_eq n1 n2 = true ↔ __class__ n1 = __class__ n2 ∧ uuid n1 = uuid n2)
  ∧ Node_eq n1 n1 = true
  ∧ Node_eq n1 n2 = Node_eq n2 n1
  ∧ (Node_eq n1 n2 = true → Node_eq n2 n3 = true → Node_eq n1 n3 = true)
  ∧ (__class__ n1 ≠ __class__ n2 → uuid n1 = uuid n2 → Node_eq n1 n2 = false).
Proof.
  split_and!.
  - apply Node_eq_true.
  - by apply Node_eq_true.
  - destruct (Node_eq n2 n1) eqn:H21.
    + apply Node_eq_true in H21 as [??]. by apply Node_eq_true.
    + destruct (Node_eq n1 n2) eqn:H12; [|done].
      apply Node_eq_true in H12 as [??].
      rewrite <- H21. symmetry. by apply Node_eq_true.
  - intros [H1 H2]%Node_eq_true [H3 H4]%Node_eq_true.
    apply Node_eq_true. split; congruence.
  - intros Hc _. unfold Node_eq. by rewrite (bool_decide_eq_false_2 _ Hc).
Qed.

Lemma Node_eq_class_and_identity_witness :
  Node_eq (MkNode System "uuid-" 0 (MFnDagNode 0))
          (MkNode NodeClass "uuid-" 0 (MFnDagNode 0)) = false
  ∧ Node_eq (MkNode System "uuid-" 0 (MFnDagNode 0))
            (MkNode System "uuid-" 3 (MFnDependencyNode 3)) = true.
Proof.
  pose proof (Node_eq_class_and_identity
    (MkNode System "uuid-" 0 (MFnDagNode 0))
    (MkNode NodeClass "uuid-" 0 (MFnDagNode 0))
    (MkNode System "uuid-" 3 (MFnDependencyNode 3))) as (_ & _ & _ & _ & H).
  split; [apply H; [discriminate|reflexivity]|reflexivity].
Defined.

(** ** [Factory.register] *)

Lemma hierarchy_forall_ind (P : hierarchy → Prop) :
  (∀ c subclasses, Forall P subclasses → P (Loaded c subclasses)) →
  ∀ h, P h.
Proof.
  intros step. fix IH 1. intros [c subclasses]. apply step.
  induction subclasses as [|h l IHl]; constructor; [apply IH|exact IHl].
Qed.

Lemma register_list_app self l1 l2 :
  register_list self (l1 ++ l2) = register_list (register_list self l1) l2.
Proof. apply fold_left_app. Qed.

Lemma register_preorder h : ∀ self,
  register self h = register_list self (preorder h).
Proof.
  induction h as [c subclasses IH] using hierarchy_forall_ind.
  intros self. simpl. unfold register_list at 1. simpl.
  generalize (<[__name__ c := c]> self). clear self.
  induction IH as [|h l Hh _ IHl]; intros reg; simpl; [done|].
  fold (register_list reg (preorder h ++ flat_map preorder l)).
  rewrite register_list_app, <- Hh. apply IHl.
Qed.

Lemma register_list_lookup l : ∀ self key,
  register_list self l !! key =
  match last_named key l with
  | Some c => Some c
  | None => self !! key
  end.
Proof.
  unfold register_list, last_named.
  induction l as [|c l IH]; intros self key; simpl; [done|].
  rewrite IH, filter_cons. case_decide as Hc.
  - rewrite last_cons. destruct (last (filter _ l)); [done|].
    subst key. by rewrite lookup_insert_eq.
  - destruct (last (filter _ l)); [done|]. by rewrite lookup_insert_ne.
Qed.

Lemma last_named_Some key l c :
  last_named key l = Some c → c ∈ l ∧ __name__ c = key.
Proof.
  unfold last_named. intros H%last_Some_elem_of.
  by apply list_elem_of_filter in H as [??].
Qed.

Lemma last_named_is_Some key l c :
  c ∈ l → __name__ c = key → is_Some (last_named key l).
Proof.
  intros Hc Hk. unfold last_named.
  destruct (last _) eqn:Hl; [eauto|]. apply last_None in Hl.
  assert (c ∈ filter (λ c, __name__ c = key) l) as Hin
    by by apply list_elem_of_filter.
  rewrite Hl in Hin. by apply elem_of_nil in Hin.
Qed.

(** C5, as the code has it.  [register] inserts the class under its name
    and then registers the loaded subclasses, depth first, every insertion
    overwriting the entry of the same name.  Afterwards the name of every
    loaded class of the hierarchy maps to the class of that name registered
    last: to the class itself when no other loaded class of the hierarchy
    bears its name.  Other keys keep their entry, and registering a class
    again overwrites its entry. *)
Theorem register_hierarchy (self : gmap string pyclass) (A : pyclass)
    (subclasses : list hierarchy) :
  let h := Loaded A subclasses in
  register self h = fold_left register subclasses (<[__name__ A := A]> self)
  ∧ (∀ B, B ∈ preorder h →
       ∃ B', register self h !! __name__ B = Some B'
             ∧ last_named (__name__ B) (preorder h) = Some B'
             ∧ B' ∈ preorder h ∧ __name__ B' = __name__ B)
  ∧ (∀ B, B ∈ preorder h →
       (∀ B', B' ∈ preorder h → __name__ B' = __name__ B → B' = B) →
       register self h !! __name__ B = Some B)
  ∧ (∀ key, (∀ c, c ∈ preorder h → __name__ c ≠ key) →
       register self h !! key = self !! key)
  ∧ register (register self (Loaded A [])) (Loaded A []) !! __name__ A
    = Some A.
Proof.
  intros h.
  assert (∀ B, B ∈ preorder h →
            ∃ B', register self h !! __name__ B = Some B'
                  ∧ last_named (__name__ B) (preorder h) = Some B'
                  ∧ B' ∈ preorder h ∧ __name__ B' = __name__ B) as Hlast.
  { intros B HB. rewrite register_preorder, register_list_lookup.
    destruct (last_named_is_Some (__name__ B) (preorder h) B HB eq_refl)
      as [B' HB'].
    rewrite HB'. exists B'.
    destruct (last_named_Some _ _ _ HB') as [Hin Hname]. done. }
  split_and!.
  - reflexivity.
  - exact Hlast.
  - intros B HB Honly. destruct (Hlast B HB) as (B' & -> & _ & Hin & Hname).
    by rewrite (Honly B' Hin Hname).
  - intros key Hkey. rewrite register_preorder, register_list_lookup.
    destruct (last_named key (preorder h)) as [c|] eqn:Hc; [|done].
    apply last_named_Some in Hc as [Hin Hname]. by destruct (Hkey c Hin).
  - simpl. apply lookup_insert_eq.
Qed.

Lemma register_hierarchy_witness :
  let Rig := PyClass 2 "Rig" "transform" "grp" in
  let Arm := PyClass 3 "Arm" "joint" "grp" in
  register ∅ (Loaded System [Loaded Rig [Loaded Arm []]]) !! "Arm" = Some Arm.
Proof.
  intros Rig Arm.
  destruct (register_hierarchy ∅ System [Loaded Rig [Loaded Arm []]])
    as (_ & _ & H & _).
  apply (H Arm).
  - simpl. set_solver.
  - intros B' HB' Hname. simpl in HB'.
    repeat (apply elem_of_cons in HB' as [->|HB']); try done.
    by apply elem_of_nil in HB'.
Defined.

(** C5 as stated fails when two loaded classes have the same name: the one
    registered last takes the key. *)
Lemma register_same_name_counterexample :
  ¬ (∀ (self : gmap string pyclass) (A : pyclass) (subclasses : list hierarchy)
       (B : pyclass),
       B ∈ preorder (Loaded A subclasses) →
       register self (Loaded A subclasses) !! __name__ B = Some B).
Proof.
  intros H.
  specialize (H ∅ System
    [Loaded (PyClass 2 "Rig" "transform" "grp") [];
     Loaded (PyClass 3 "Rig" "joint" "grp") []]
    (PyClass 2 "Rig" "transform" "grp")).
  assert (register ∅ (Loaded System
    [Loaded (PyClass 2 "Rig" "transform" "grp") [];
     Loaded (PyClass 3 "Rig" "joint" "grp") []]) !! "Rig"
    = Some (PyClass 3 "Rig" "joint" "grp")) as Hrun by (vm_compute; reflexivity).
  simpl __name__ in H. rewrite Hrun in H.
  assert (PyClass 3 "Rig" "joint" "grp" = PyClass 2 "Rig" "transform" "grp")
    as Heq; [|discriminate Heq].
  apply (inj Some), H. simpl. set_solver.
Qed.

(** ** Invariants of the service *)

#[global] Instance keeps_refl : Reflexive keeps.
Proof. intros s o r Hr. eauto. Qed.

#[global] Instance keeps_trans : Transitive keeps.
Proof.
  intros s1 s2 s3 H12 H23 o r Hr.
  destruct (H12 o r Hr) as (r2 & Hr2 & Hi2).
  destruct (H23 o r2 Hr2) as (r3 & Hr3 & Hi3).
  exists r3. split; [done|congruence].
Qed.

Lemma keeps_is_valid s s' o :
  keeps s s' → is_valid s o = true → is_valid s' o = true.
Proof.
  unfold is_valid. intros Hk Hv.
  destruct (nodes s !! o) as [r|] eqn:Hr; [|done].
  destruct (Hk o r Hr) as (r' & -> & Hi). simpl in *.
  unfold ident in Hi. congruence.
Qed.

#[global] Instance scene_inv_True : scene_inv (λ _, True).
Proof. by split. Qed.

#[global] Instance scene_inv_keeps s0 : scene_inv (keeps s0).
Proof.
  split; try (intros; assumption).
  - intros f s Hk o r Hr. destruct (Hk o r Hr) as (r' & Hr' & Hi).
    exists (set_name (f r') r'). split; [|done].
    simpl. by rewrite list_lookup_fmap, Hr'.
  - intros name o' s Hk o r Hr. destruct (Hk o r Hr) as (r' & Hr' & Hi).
    simpl. destruct (decide (o' = o)) as [->|Hne].
    + exists (set_name name r'). split; [|done].
      by rewrite list_lookup_alter_eq, Hr'.
    + exists r'. split; [|done]. by rewrite list_lookup_alter_ne.
  - intros attr value o' s Hk o r Hr. destruct (Hk o r Hr) as (r' & Hr' & Hi).
    simpl. destruct (decide (o' = o)) as [->|Hne].
    + exists (set_attr attr value r'). split; [|done].
      by rewrite list_lookup_alter_eq, Hr'.
    + exists r'. split; [|done]. by rewrite list_lookup_alter_ne.
  - intros r0 s Hk o r Hr. destruct (Hk o r Hr) as (r' & Hr' & Hi).
    exists r'. split; [|done]. simpl. by apply lookup_app_l_Some.
Qed.

Lemma host_error_maya detail : host_error (maya_error detail).
Proof. by exists detail. Qed.

Create HintDb maintains discriminated.
#[global] Hint Resolve host_error_maya : maintains.

(** The invariant survives one change of the scene. *)
Ltac inv_closed :=
  first [ by apply inv_call | by apply inv_selection
        | by apply inv_namespaces | by apply inv_rename
        | by apply inv_set_attr | by apply inv_append ].

(** One step through a computation. *)
Ltac maintains_step :=
  lazymatch goal with
  | |- maintains _ _ (mbind _ _) => apply maintains_bind; [|intros ?]
  | |- maintains _ _ (mret _) => apply maintains_ret
  | |- maintains _ _ get_scene => apply maintains_get_scene
  | |- maintains _ _ (raise _) => apply maintains_raise
  | |- maintains _ _ (modify _) => apply maintains_modify; intros ??
  | |- maintains _ _ (log_call _) => apply maintains_modify; intros ??
  | |- maintains _ _ (try_finally _ _) => apply maintains_try_finally
  | |- maintains _ _ (if ?b then _ else _) => destruct b
  | |- maintains _ _ (match ?x with _ => _ end) => destruct x
  end.

Ltac solve_maintains :=
  repeat maintains_step; try inv_closed; eauto with maintains.

Section service_invariants.
Context (I : Scene → Prop) `{!scene_inv I}.

Lemma lookup_node_maintains key : maintains I host_error (lookup_node key).
Proof.
  intros s Hs. unfold lookup_node.
  destruct (find_node key s); eauto with maintains.
Qed.

Lemma name_to_node_maintains E value : maintains I E (name_to_node value).
Proof. by intros s Hs. Qed.

Lemma om_read_maintains {A} o (f : node_rec → A) :
  maintains I host_error (om_read o f).
Proof.
  intros s Hs. unfold om_read. destruct (nodes s !! o); eauto with maintains.
Qed.

Lemma isValid_maintains E o : maintains I E (MObjectHandle_isValid o).
Proof. by intros s Hs. Qed.

Lemma hasObj_maintains E o : maintains I E (MFnDagNode_hasObj o).
Proof. by intros s Hs. Qed.

Hint Resolve lookup_node_maintains om_read_maintains : maintains.

Lemma require_namespace_maintains ns :
  maintains I host_error (require_namespace ns).
Proof. unfold require_namespace. solve_maintains. Qed.

Lemma parse_plug_maintains plug : maintains I host_error (parse_plug plug).
Proof. unfold parse_plug. solve_maintains. Qed.

Lemma require_attr_maintains attr r :
  maintains I host_error (require_attr attr r).
Proof. unfold require_attr. solve_maintains. Qed.

Hint Resolve require_namespace_maintains parse_plug_maintains
  require_attr_maintains : maintains.

Lemma cmds_ls_maintains E obj : maintains I E (cmds_ls obj).
Proof. unfold cmds_ls. solve_maintains. Qed.

Lemma cmds_createNode_maintains nodetype name parent :
  maintains I host_error (cmds_createNode nodetype name parent).
Proof. unfold cmds_createNode. solve_maintains. Qed.

Lemma cmds_select_maintains obj : maintains I host_error (cmds_select obj).
Proof. unfold cmds_select. solve_maintains. Qed.

Lemma get_selection_maintains E : maintains I E get_selection.
Proof. unfold get_selection. solve_maintains. Qed.

Lemma set_selection_maintains E objs : maintains I E (set_selection objs).
Proof. unfold set_selection. solve_maintains. Qed.

Lemma cmds_file_maintains filename es settings :
  maintains I host_error (cmds_file filename es settings).
Proof. unfold cmds_file. solve_maintains. Qed.

Lemma cmds_rename_maintains obj value :
  maintains I host_error (cmds_rename obj value).
Proof. unfold cmds_rename. solve_maintains. Qed.

Lemma cmds_namespace_ex_maintains E ns :
  maintains I E (cmds_namespace_ex ns).
Proof. unfold cmds_namespace_ex. solve_maintains. Qed.

Lemma cmds_namespace_add_maintains ns :
  maintains I host_error (cmds_namespace_add ns).
Proof. unfold cmds_namespace_add. solve_maintains. Qed.

Lemma cmds_namespace_mv_maintains src dst :
  maintains I host_error (cmds_namespace_mv src dst).
Proof.
  unfold cmds_namespace_mv, move_nodes. solve_maintains.
  by apply (inv_rename_all (λ r, move_name src dst (r_name r))).
Qed.

Lemma cmds_namespace_ren_maintains old new parent :
  maintains I host_error (cmds_namespace_ren old new parent).
Proof.
  unfold cmds_namespace_ren, move_nodes. solve_maintains.
  all: by apply (inv_rename_all (λ r, move_name old _ (r_name r))).
Qed.

Lemma cmds_namespace_rm_maintains ns mnr :
  maintains I host_error (cmds_namespace_rm ns mnr).
Proof.
  unfold cmds_namespace_rm, move_nodes. solve_maintains.
  by apply (inv_rename_all (λ r, move_name ns "" (r_name r))).
Qed.

Lemma cmds_namespaceInfo_ls_maintains ns :
  maintains I host_error (cmds_namespaceInfo_ls ns).
Proof. unfold cmds_namespaceInfo_ls. solve_maintains. Qed.

Lemma cmds_attributeQuery_ex_maintains attr obj :
  maintains I host_error (cmds_attributeQuery_ex attr obj).
Proof. unfold cmds_attributeQuery_ex. solve_maintains. Qed.

Lemma cmds_addAttr_maintains obj ln dt :
  maintains I host_error (cmds_addAttr obj ln dt).
Proof. unfold cmds_addAttr. solve_maintains. Qed.

Lemma cmds_setAttr_maintains plug value :
  maintains I host_error (cmds_setAttr plug value).
Proof. unfold cmds_setAttr. solve_maintains. Qed.

Lemma cmds_getAttr_maintains plug :
  maintains I host_error (cmds_getAttr plug).
Proof. unfold cmds_getAttr. solve_maintains. Qed.
End service_invariants.

#[global] Hint Extern 1 (scene_inv _) => tc_solve : maintains.
#[global] Hint Resolve lookup_node_maintains name_to_node_maintains
  om_read_maintains isValid_maintains hasObj_maintains
  require_namespace_maintains parse_plug_maintains require_attr_maintains
  cmds_ls_maintains cmds_createNode_maintains cmds_select_maintains
  get_selection_maintains set_selection_maintains cmds_file_maintains
  cmds_rename_maintains cmds_namespace_ex_maintains
  cmds_namespace_add_maintains cmds_namespace_mv_maintains
  cmds_namespace_ren_maintains cmds_namespace_rm_maintains
  cmds_namespaceInfo_ls_maintains cmds_attributeQuery_ex_maintains
  cmds_addAttr_maintains cmds_setAttr_maintains cmds_getAttr_maintains
  : maintains.

Lemma cmds_delete_host_error obj :
  maintains (λ _, True) host_error (cmds_delete obj).
Proof. unfold cmds_delete. solve_maintains. Qed.

(** ** The [fn] property and what goes through it *)

Lemma Node_fn_valid n s :
  is_valid s (dependnode n) = true → Node_fn n s = (Return (_fn n), s).
Proof.
  intros Hv. unfold Node_fn. rewrite run_bind.
  unfold MObjectHandle_isValid. fold (is_valid s (dependnode n)).
  by rewrite Hv.
Qed.

Lemma Node_fn_stale n s :
  is_valid s (dependnode n) = false →
  Node_fn n s = (Raise (stale_error n), s).
Proof.
  intros Hv. unfold Node_fn. rewrite run_bind.
  unfold MObjectHandle_isValid. fold (is_valid s (dependnode n)).
  by rewrite Hv.
Qed.

Lemma Node_get_name_stale n s :
  is_valid s (dependnode n) = false →
  Node_get_name n s = (Raise (stale_error n), s).
Proof.
  intros Hv. unfold Node_get_name.
  by rewrite (run_bind_Raise _ _ _ _ _ (Node_fn_stale n s Hv)).
Qed.

Lemma Node_namespace_stale n s :
  is_valid s (dependnode n) = false →
  Node_namespace n s = (Raise (stale_error n), s).
Proof.
  intros Hv. unfold Node_namespace.
  by rewrite (run_bind_Raise _ _ _ _ _ (Node_fn_stale n s Hv)).
Qed.

Lemma Node_nodename_stale n s :
  is_valid s (dependnode n) = false →
  Node_nodename n s = (Raise (stale_error n), s).
Proof.
  intros Hv. unfold Node_nodename.
  by rewrite (run_bind_Raise _ _ _ _ _ (Node_fn_stale n s Hv)).
Qed.

Lemma Node_repr_stale n s :
  is_valid s (dependnode n) = false →
  Node_repr n s = (Raise (stale_error n), s).
Proof.
  intros Hv. unfold Node_repr.
  by rewrite (run_bind_Raise _ _ _ _ _ (Node_get_name_stale n s Hv)).
Qed.

Lemma System_type_stale n s :
  is_valid s (dependnode n) = false →
  System_type n s = (Raise (stale_error n), s).
Proof.
  intros Hv. unfold System_type.
  by rewrite (run_bind_Raise _ _ _ _ _ (Node_get_name_stale n s Hv)).
Qed.

Lemma Node_delete_stale n s :
  is_valid s (dependnode n) = false →
  Node_delete n s = (Raise (stale_error n), s).
Proof.
  intros Hv. unfold Node_delete.
  by rewrite (run_bind_Raise _ _ _ _ _ (Node_namespace_stale n s Hv)).
Qed.

Lemma KeepSel_run {A} (body : M A) s :
  KeepSel body s =
  match body (with_call Call_ls_selection s) with
  | (r, s1) =>
      (r, with_selection (λ _, selection s)
            (with_call (Call_select_list (selection s)) s1))
  end.
Proof.
  unfold KeepSel, get_selection, set_selection, try_finally.
  rewrite !run_bind. simpl. destruct (body _) as [r s1]. reflexivity.
Qed.

Lemma Node_export_stale n filename kwargs s :
  is_valid s (dependnode n) = false →
  result (Node_export n filename kwargs) s = Raise (stale_error n).
Proof.
  intros Hv. unfold result, Node_export. rewrite KeepSel_run.
  rewrite (run_bind_Raise _ _ _ (stale_error n)
             (with_call Call_ls_selection s)); [done|].
  by apply Node_get_name_stale.
Qed.

(** While the node is valid, reading through [fn] raises nothing of the
    wrapper's own: only the host can fail. *)
Section live_reads.
Context (I : Scene → Prop) `{!scene_inv I} (n : Node).
Hypothesis live : ∀ s, I s → is_valid s (dependnode n) = true.

Lemma Node_fn_maintains E : maintains I E (Node_fn n).
Proof. intros s Hs. by rewrite (Node_fn_valid n s (live s Hs)). Qed.

Hint Resolve Node_fn_maintains : maintains.

Lemma Node_get_name_maintains : maintains I host_error (Node_get_name n).
Proof.
  unfold Node_get_name, fn_partialPathName, fn_name. solve_maintains.
Qed.

Lemma Node_namespace_maintains : maintains I host_error (Node_namespace n).
Proof. unfold Node_namespace, fn_namespace. solve_maintains. Qed.

Lemma Node_nodename_maintains : maintains I host_error (Node_nodename n).
Proof. unfold Node_nodename, fn_name. solve_maintains. Qed.

Hint Resolve Node_get_name_maintains Node_namespace_maintains : maintains.

Lemma Node_repr_maintains : maintains I host_error (Node_repr n).
Proof. unfold Node_repr. solve_maintains. Qed.

Lemma System_type_maintains : maintains I host_error (System_type n).
Proof. unfold System_type. solve_maintains. Qed.

Hint Resolve Node_repr_maintains : maintains.

Lemma Node_set_namespace_maintains value :
  maintains I host_error (Node_set_namespace n value).
Proof.
  unfold Node_set_namespace. solve_maintains.
Qed.

Hint Resolve Node_set_namespace_maintains : maintains.

Lemma Node_rename_maintains value :
  maintains I (λ e, host_error e ∨ exc_type e = IndexError)
    (Node_rename n value).
Proof.
  unfold Node_rename.
  repeat maintains_step;
    try (eapply maintains_weaken; [|solve_maintains]; by left).
  by right.
Qed.

Lemma Node_export_maintains filename kwargs :
  maintains I (λ e, host_error e ∨ exc_type e = TypeError)
    (Node_export n filename kwargs).
Proof.
  unfold Node_export, KeepSel.
  repeat maintains_step;
    try (eapply maintains_weaken; [|solve_maintains]; by left).
  by right.
Qed.
End live_reads.

Lemma raises_only_maintains {A} I E (m : M A) :
  maintains I E m → raises_only I E m.
Proof.
  intros Hm s Hs e. unfold result. specialize (Hm s Hs).
  destruct (m s) as [[a|e'] s']; simpl; [done|].
  intros [= ->]. by destruct Hm.
Qed.

Lemma raises_only_bind {A B} I E (m : M A) (k : A → M B) :
  maintains I E m → (∀ a, raises_only I E (k a)) →
  raises_only I E (m ≫= k).
Proof.
  intros Hm Hk s Hs e. unfold result. rewrite run_bind.
  specialize (Hm s Hs). destruct (m s) as [[a|e'] s'].
  - apply (Hk a s' Hm).
  - simpl. intros [= ->]. by destruct Hm.
Qed.

Lemma raises_only_anywhere {A} (I : Scene → Prop) E (m : M A) :
  maintains (λ _, True) E m → raises_only I E m.
Proof. intros Hm s _. by apply (raises_only_maintains _ _ _ Hm s). Qed.

Lemma stale_error_not_host n : ¬ host_error (stale_error n).
Proof. intros [detail H]. unfold stale_error, maya_error in H. discriminate H. Qed.

Lemma Node_delete_live n s :
  is_valid s (dependnode n) = true →
  ∀ e, result (Node_delete n) s = Raise e → host_error e.
Proof.
  intros Hv. assert (∀ s', keeps s s' → is_valid s' (dependnode n) = true)
    as live by (intros s' Hk; by apply (keeps_is_valid s)).
  apply (raises_only_bind (keeps s)); [|intros ns|reflexivity].
  { by apply Node_namespace_maintains. }
  apply raises_only_bind; [|intros node_repr].
  { by apply Node_repr_maintains. }
  apply raises_only_bind; [|intros name].
  { by apply Node_get_name_maintains. }
  apply raises_only_anywhere.
  apply maintains_bind; [apply cmds_delete_host_error|intros _].
  solve_maintains.
Qed.

(** Scenario D, step by step: [cmds.delete] invalidates the node its
    argument designates. *)
Lemma cmds_delete_run name o r s :
  find_node name s = Some (o, r) →
  ∃ s1, cmds_delete name s = (Return (), s1) ∧ is_valid s1 o = false.
Proof.
  intros Hf. eexists. split.
  - unfold cmds_delete, log_call, lookup_node, modify, get_scene.
    rewrite !run_bind. simpl.
    change (find_node name (with_call (Call_delete name) s))
      with (find_node name s). rewrite Hf. reflexivity.
  - unfold is_valid. simpl. rewrite list_lookup_imap.
    apply list_find_Some in Hf as (Hr & _ & _). rewrite Hr. simpl.
    destruct (length (nodes s)); simpl; by rewrite bool_decide_eq_true_2.
Qed.

Lemma cmds_namespaceInfo_ls_nodes ns s :
  nodes (final (cmds_namespaceInfo_ls ns) s) = nodes s.
Proof.
  unfold final, cmds_namespaceInfo_ls, require_namespace, log_call, modify,
    get_scene. rewrite !run_bind. simpl. by case_bool_decide.
Qed.

Lemma cmds_namespace_rm_empty_nodes ns s :
  nodes (final (cmds_namespace_rm ns false) s) = nodes s.
Proof.
  unfold final, cmds_namespace_rm, require_namespace, log_call, modify,
    get_scene. rewrite !run_bind. simpl. case_bool_decide; [|done].
  simpl. rewrite run_bind. simpl. by case_match.
Qed.

Lemma Node_get_name_Return n s name :
  result (Node_get_name n) s = Return name →
  is_valid s (dependnode n) = true
  ∧ ∃ r, nodes s !! fn_object (_fn n) = Some r ∧ r_name r = name.
Proof.
  destruct (is_valid s (dependnode n)) eqn:Hv.
  - intros H. split; [done|]. revert H. unfold result, Node_get_name.
    rewrite (run_bind_Return _ _ _ _ _ (Node_fn_valid n s Hv)).
    unfold fn_partialPathName, fn_name, om_read.
    destruct (_fn n) as [o|o]; simpl;
      destruct (nodes s !! o) as [r|]; simpl; intros [= <-]; eauto.
  - unfold result. by rewrite (Node_get_name_stale n s Hv).
Qed.

Lemma Node_delete_invalidates n s name r :
  result (Node_get_name n) s = Return name →
  find_node name s = Some (dependnode n, r) →
  is_valid (final (Node_delete n) s) (dependnode n) = false.
Proof.
  intros Hname Hf.
  destruct (Node_get_name_Return n s name Hname) as (Hv & r' & Hr' & <-).
  assert (Node_get_name n s = (Return (r_name r'), s)) as Hrun.
  { unfold Node_get_name.
    rewrite (run_bind_Return _ _ _ _ _ (Node_fn_valid n s Hv)).
    unfold fn_partialPathName, fn_name, om_read.
    destruct (_fn n); simpl in *; by rewrite Hr'. }
  destruct (cmds_delete_run _ _ _ _ Hf) as (s1 & Hdel & Hgone).
  unfold final, Node_delete.
  rewrite (run_bind_Return _ _ s (namespace_of (r_name r')) s).
  2:{ unfold Node_namespace.
      rewrite (run_bind_Return _ _ _ _ _ (Node_fn_valid n s Hv)).
      unfold fn_namespace, om_read. by rewrite Hr'. }
  rewrite (run_bind_Return _ _ s
             (__name__ (__class__ n) +:+ "('" +:+ r_name r' +:+ "')") s).
  2:{ unfold Node_repr. by rewrite (run_bind_Return _ _ _ _ _ Hrun). }
  rewrite (run_bind_Return _ _ _ _ _ Hrun).
  rewrite (run_bind_Return _ _ _ _ _ Hdel).
  case_bool_decide; [|done].
  rewrite run_bind.
  pose proof (cmds_namespaceInfo_ls_nodes (namespace_of (r_name r')) s1) as Hi.
  unfold final in Hi.
  destruct (cmds_namespaceInfo_ls _ s1) as [[[|x l]|e] s2]; simpl in *.
  - pose proof (cmds_namespace_rm_empty_nodes (namespace_of (r_name r')) s2)
      as Hrm. unfold is_valid, final in *. by rewrite Hrm, Hi.
  - unfold is_valid in *. by rewrite Hi.
  - unfold is_valid in *. by rewrite Hi.
Qed.

Lemma live_not_stale {A} (m : M A) n s E :
  maintains (keeps s) E m → ¬ E (stale_error n) →
  result m s ≠ Raise (stale_error n).
Proof.
  intros Hm HE Hr. apply HE.
  by apply (raises_only_maintains _ _ _ Hm s).
Qed.

(** C3, as the code has it.  The failure of a stale reference is a
    [RuntimeError] whose message names the class and the UUID.  When the
    wrapped node is not valid (deleted, or never there), [name],
    [namespace], [nodename], [type], [delete] and [export] raise it; while
    the node is valid none of them does; and [delete] leaves the node
    invalid when the wrapper's name designates it. *)
Theorem stale_reference_raises (n : Node) (s : Scene) (filename : string)
    (kwargs : gmap string pyval) :
  stale_error n =
    Exn RuntimeError ("Invalid depend node. " +:+ __name__ (__class__ n)
                      +:+ "(" +:+ uuid n +:+ ") not found")
  ∧ (is_valid s (dependnode n) = false →
       result (Node_get_name n) s = Raise (stale_error n)
       ∧ result (Node_namespace n) s = Raise (stale_error n)
       ∧ result (Node_nodename n) s = Raise (stale_error n)
       ∧ result (System_type n) s = Raise (stale_error n)
       ∧ result (Node_delete n) s = Raise (stale_error n)
       ∧ result (Node_export n filename kwargs) s = Raise (stale_error n))
  ∧ (is_valid s (dependnode n) = true →
       result (Node_get_name n) s ≠ Raise (stale_error n)
       ∧ result (Node_namespace n) s ≠ Raise (stale_error n)
       ∧ result (Node_nodename n) s ≠ Raise (stale_error n)
       ∧ result (System_type n) s ≠ Raise (stale_error n)
       ∧ result (Node_delete n) s ≠ Raise (stale_error n)
       ∧ result (Node_export n filename kwargs) s ≠ Raise (stale_error n))
  ∧ (∀ name r,
       result (Node_get_name n) s = Return name →
       find_node name s = Some (dependnode n, r) →
       is_valid (final (Node_delete n) s) (dependnode n) = false).
Proof.
  split_and!.
  - reflexivity.
  - intros Hv. unfold result.
    rewrite (Node_get_name_stale n s Hv), (Node_namespace_stale n s Hv),
      (Node_nodename_stale n s Hv), (System_type_stale n s Hv),
      (Node_delete_stale n s Hv).
    split_and!; try done. by apply Node_export_stale.
  - intros Hv.
    assert (∀ s', keeps s s' → is_valid s' (dependnode n) = true)
      as live by (intros s' Hk; by apply (keeps_is_valid s)).
    pose proof (stale_error_not_host n) as Hnot.
    split_and!.
    + eapply live_not_stale; [by apply Node_get_name_maintains|done].
    + eapply live_not_stale; [by apply Node_namespace_maintains|done].
    + eapply live_not_stale; [by apply Node_nodename_maintains|done].
    + by apply (live_not_stale _ _ _ _ (System_type_maintains (keeps s) n live)).
    + intros H. by apply Hnot, (Node_delete_live n s Hv).
    + apply (live_not_stale _ _ _ _
               (Node_export_maintains (keeps s) n live filename kwargs)).
      intros [?|?]; [done|discriminate].
  - intros name r. apply Node_delete_invalidates.
Qed.

Lemma stale_reference_raises_witness :
  result (System_type duck) deleted_scene
  = Raise (Exn RuntimeError "Invalid depend node. System(uuid-) not found")
  ∧ result (System_type duck) duck_scene ≠ Raise (stale_error duck)
  ∧ is_valid (final (Node_delete duck) duck_scene) 0 = false.
Proof.
  destruct (stale_reference_raises duck deleted_scene "out.ma" ∅)
    as (_ & Hstale & _ & _).
  destruct (stale_reference_raises duck duck_scene "out.ma" ∅)
    as (_ & _ & Hlive & Hdel).
  split_and!.
  - apply Hstale. vm_compute. reflexivity.
  - apply Hlive. vm_compute. reflexivity.
  - apply (Hdel "duck" (NodeRec "uuid-" "duck" "transform" true None
                          (<["system_type" := "System"]> ∅) true));
      vm_compute; reflexivity.
Defined.

(** C3 as stated fails on the class of the error: what [Node.fn] raises is
    a [RuntimeError], not a [ReferenceError]. *)
Lemma stale_error_not_ReferenceError :
  ¬ (∀ n s, is_valid s (dependnode n) = false →
       ∃ e, result (Node_get_name n) s = Raise e
            ∧ exc_type e = ReferenceError).
Proof.
  intros H. destruct (H duck deleted_scene) as (e & He & Hc).
  { vm_compute. reflexivity. }
  vm_compute in He. injection He as <-. discriminate Hc.
Qed.

(** ** Computations that only read *)

Lemma reads_run {A} (m : M A) s r s' : reads m → m s = (r, s') → s' = s.
Proof. intros Hm H. specialize (Hm s). unfold final in Hm. by rewrite H in Hm. Qed.

Lemma reads_raise {A} e : reads (raise (A := A) e).
Proof. done. Qed.

Lemma om_read_reads {A} o (f : node_rec → A) : reads (om_read o f).
Proof. intros s. unfold final, om_read. by destruct (nodes s !! o). Qed.

Lemma name_to_node_reads value : reads (name_to_node value).
Proof. done. Qed.

Lemma isValid_reads o : reads (MObjectHandle_isValid o).
Proof. done. Qed.

Lemma hasObj_reads o : reads (MFnDagNode_hasObj o).
Proof. done. Qed.

Create HintDb reads discriminated.
#[global] Hint Resolve reads_ret reads_raise om_read_reads name_to_node_reads
  isValid_reads hasObj_reads : reads.

Ltac reads_step :=
  lazymatch goal with
  | |- reads (mbind _ _) => apply reads_bind; [|intros ?]
  | |- reads (if ?b then _ else _) => destruct b
  | |- reads (match ?x with _ => _ end) => destruct x
  end.

Ltac solve_reads := repeat reads_step; eauto with reads.

Lemma require_attr_reads attr r : reads (require_attr attr r).
Proof. unfold require_attr. solve_reads. Qed.

Lemma resolve_reads value : reads (resolve value).
Proof. unfold resolve. solve_reads. Qed.

Lemma Node_fn_reads n : reads (Node_fn n).
Proof. unfold Node_fn. solve_reads. Qed.

#[global] Hint Resolve require_attr_reads resolve_reads Node_fn_reads : reads.

Lemma Node_get_name_reads n : reads (Node_get_name n).
Proof. unfold Node_get_name, fn_partialPathName, fn_name. solve_reads. Qed.

Lemma Node_namespace_reads n : reads (Node_namespace n).
Proof. unfold Node_namespace, fn_namespace. solve_reads. Qed.

Lemma Node_nodename_reads n : reads (Node_nodename n).
Proof. unfold Node_nodename, fn_name. solve_reads. Qed.

#[global] Hint Resolve Node_get_name_reads Node_namespace_reads : reads.

Lemma Node_repr_reads n : reads (Node_repr n).
Proof. unfold Node_repr. solve_reads. Qed.

Lemma Node_new_reads cls value : reads (Node_new cls value).
Proof. unfold Node_new, fn_setObject, fn_uuid. solve_reads. Qed.

Lemma get_system_class_reads self obj : reads (get_system_class self obj).
Proof.
  unfold get_system_class, fn_setObject, fn_hasAttribute,
    fn_findPlug_asString.
  solve_reads.
Qed.

#[global] Hint Resolve Node_repr_reads Node_new_reads get_system_class_reads
  : reads.

Lemma get_system_reads self obj : reads (get_system self obj).
Proof. unfold get_system. solve_reads. Qed.

Lemma bind_Return_inv {A B} (m : M A) (k : A → M B) s b s' :
  (m ≫= k) s = (Return b, s') →
  ∃ a s1, m s = (Return a, s1) ∧ k a s1 = (Return b, s').
Proof.
  rewrite run_bind. destruct (m s) as [[a|e] s1]; [eauto|done].
Qed.

Lemma reads_result {A} (m : M A) s : reads m → m s = (result m s, s).
Proof.
  intros Hm. specialize (Hm s). unfold final, result in *.
  destruct (m s) as [r s']. simpl in *. by subst.
Qed.

Lemma Node_get_name_nodes n s1 s2 :
  nodes s1 = nodes s2 →
  result (Node_get_name n) s1 = result (Node_get_name n) s2.
Proof.
  intros Hn. unfold result, Node_get_name, Node_fn, MObjectHandle_isValid,
    fn_partialPathName, fn_name, om_read.
  rewrite !run_bind. simpl. rewrite Hn.
  destruct (from_option r_valid false _); simpl; [|done].
  destruct (_fn n); simpl; rewrite Hn; by case_match.
Qed.

Lemma cmds_select_Return name s s' :
  cmds_select name s = (Return (), s') →
  calls s' = calls s ++ [Call_select name] ∧ nodes s' = nodes s.
Proof.
  unfold cmds_select, log_call, lookup_node, modify.
  rewrite !run_bind. simpl.
  destruct (find_node _ _); simpl; [|done]. by intros [= <-].
Qed.

Lemma cmds_file_Return filename es settings s s' :
  cmds_file filename es settings s = (Return (), s') →
  calls s' = calls s ++ [Call_file filename es settings]
  ∧ nodes s' = nodes s.
Proof.
  unfold cmds_file, log_call, get_scene, modify.
  rewrite !run_bind. simpl.
  destruct (selection s); simpl; [done|]. by intros [= <-].
Qed.

(** ** [Node.export] *)

Lemma export_selection n filename kwargs s :
  selection (final (Node_export n filename kwargs) s) = selection s.
Proof.
  unfold final, Node_export. rewrite KeepSel_run.
  match goal with
  | |- context [?body (with_call Call_ls_selection s)] =>
      by destruct (body (with_call Call_ls_selection s))
  end.
Qed.

Lemma export_calls n filename kwargs s :
  result (Node_export n filename kwargs) s = Return () →
  ∃ name, result (Node_get_name n) s = Return name ∧
    calls (final (Node_export n filename kwargs) s) =
      calls s ++ [Call_ls_selection; Call_select name;
                  Call_file filename true (export_settings kwargs);
                  Call_select_list (selection s)].
Proof.
  unfold result at 1, final, Node_export. rewrite KeepSel_run.
  set (s0 := with_call Call_ls_selection s).
  match goal with
  | |- context [?body s0] => destruct (body s0) as [r s1] eqn:Hbody
  end.
  simpl. intros ->.
  apply bind_Return_inv in Hbody as (name & s2 & Hname & Hbody).
  pose proof (reads_run _ _ _ _ (Node_get_name_reads n) Hname) as ->.
  apply bind_Return_inv in Hbody as ([] & s3 & Hsel & Hbody).
  apply bind_Return_inv in Hbody as ([] & s4 & Hfile & Hbody).
  apply bind_Return_inv in Hbody as (node_repr & s5 & Hrepr & [= <-]).
  pose proof (reads_run _ _ _ _ (Node_repr_reads n) Hrepr) as ->.
  exists name. split.
  - rewrite <- (Node_get_name_nodes n s0 s) by done.
    unfold result. by rewrite Hname.
  - apply cmds_select_Return in Hsel as [Hc3 _].
    case_bool_decide; [done|].
    apply cmds_file_Return in Hfile as [Hc4 _].
    rewrite Hc4, Hc3. simpl. by rewrite <- !app_assoc.
Qed.

(** C8.  Whatever happens during [export], the selection at the end is the
    selection at the start.  The settings handed to [cmds.file] are
    [{'pr': 1, 'typ': 'mayaAscii'}] with every keyword argument of the
    caller on top; a successful export has selected the node and written
    the file with them. *)
Theorem export_restores_selection (n : Node) (filename : string)
    (kwargs : gmap string pyval) (s : Scene) :
  selection (final (Node_export n filename kwargs) s) = selection s
  ∧ export_settings ∅ = <["pr" := PInt 1]> (<["typ" := PStr "mayaAscii"]> ∅)
  ∧ (∀ key v, kwargs !! key = Some v →
       export_settings kwargs !! key = Some v)
  ∧ (∀ key, kwargs !! key = None →
       export_settings kwargs !! key = export_settings ∅ !! key)
  ∧ (result (Node_export n filename kwargs) s = Return () →
       ∃ name, result (Node_get_name n) s = Return name ∧
         calls (final (Node_export n filename kwargs) s) =
           calls s ++ [Call_ls_selection; Call_select name;
                       Call_file filename true (export_settings kwargs);
                       Call_select_list (selection s)]).
Proof.
  split_and!.
  - apply export_selection.
  - unfold export_settings. by rewrite (left_id_L ∅ (∪)).
  - intros key v Hk. unfold export_settings.
    by apply lookup_union_Some_l.
  - intros key Hk. unfold export_settings.
    by rewrite (left_id_L ∅ (∪)), lookup_union_r.
  - apply export_calls.
Qed.

Lemma export_restores_selection_witness :
  result (Node_export duck "out.ma" (<["typ" := PStr "mayaBinary"]> ∅))
         duck_scene = Return ()
  ∧ selection (final (Node_export duck "out.ma"
                        (<["typ" := PStr "mayaBinary"]> ∅)) duck_scene) = []
  ∧ export_settings (<["typ" := PStr "mayaBinary"]> ∅) !! "typ"
    = Some (PStr "mayaBinary")
  ∧ export_settings (<["typ" := PStr "mayaBinary"]> ∅) !! "pr"
    = Some (PInt 1).
Proof.
  destruct (export_restores_selection duck "out.ma"
              (<["typ" := PStr "mayaBinary"]> ∅) duck_scene)
    as (Hsel & _ & Hover & Hdef & _).
  split_and!.
  - vm_compute. reflexivity.
  - rewrite Hsel. vm_compute. reflexivity.
  - apply Hover. vm_compute. reflexivity.
  - rewrite Hdef by (vm_compute; reflexivity). vm_compute. reflexivity.
Defined.

(** ** The [namespace] setter *)

(** C10.  On a valid node whose name has no namespace, assigning to
    [namespace] returns without a single call to the host: the scene (its
    nodes and their names, its namespaces, its log of calls) is the one
    it started from. *)
Theorem set_namespace_without_namespace (n : Node) (value name : string)
    (s : Scene) :
  result (Node_get_name n) s = Return name →
  str_contains ":" name = false →
  Node_set_namespace n value s = (Return (), s)
  ∧ calls (final (Node_set_namespace n value) s) = calls s
  ∧ namespaces (final (Node_set_namespace n value) s) = namespaces s
  ∧ result (Node_get_name n) (final (Node_set_namespace n value) s)
    = Return name.
Proof.
  intros Hname Hroot.
  assert (Node_set_namespace n value s = (Return (), s)) as Hrun.
  { destruct (Node_get_name_Return n s name Hname) as (Hv & r & Hr & <-).
    unfold Node_set_namespace.
    rewrite (run_bind_Return _ _ s "" s); [done|].
    unfold Node_namespace.
    rewrite (run_bind_Return _ _ _ _ _ (Node_fn_valid n s Hv)).
    unfold fn_namespace, om_read. rewrite Hr.
    by rewrite (namespace_of_root _ Hroot). }
  unfold final. by rewrite Hrun.
Qed.

Lemma set_namespace_without_namespace_witness :
  Node_set_namespace duck "rig:left" duck_scene = (Return (), duck_scene).
Proof.
  apply (set_namespace_without_namespace duck "rig:left" "duck" duck_scene);
    vm_compute; reflexivity.
Defined.

(** ** Resolving a reference *)

Lemma node_matches_true key r :
  node_matches key r = true ↔
  r_valid r = true ∧ (r_name r = key ∨ r_uuid r = key).
Proof.
  unfold node_matches.
  rewrite andb_true_iff, orb_true_iff, !bool_decide_eq_true. done.
Qed.

Lemma find_node_Some key s o r :
  find_node key s = Some (o, r) →
  nodes s !! o = Some r ∧ r_valid r = true ∧ (r_name r = key ∨ r_uuid r = key).
Proof.
  intros (Hr & Hm & _)%list_find_Some. split; [done|].
  by apply node_matches_true.
Qed.

Lemma find_node_None key s :
  (∀ r, r ∈ nodes s → r_valid r = true → r_name r ≠ key ∧ r_uuid r ≠ key) →
  find_node key s = None.
Proof.
  intros H. apply list_find_None, Forall_forall. intros r Hr Hm.
  apply node_matches_true in Hm as [Hv Hk].
  destruct (H r Hr Hv). by destruct Hk.
Qed.

Lemma resolve_str value s :
  resolve (RefStr value) s = (Return (fst <$> find_node value s), s).
Proof. reflexivity. Qed.

Lemma resolve_result value s :
  resolve value s = (result (resolve value) s, s).
Proof. apply reads_result, resolve_reads. Qed.

Lemma resolve_not_Raise value s e : result (resolve value) s ≠ Raise e.
Proof. by destruct value. Qed.

(** ** [Factory.get_system_class] *)

Lemma get_system_class_None self obj s :
  result (resolve obj) s = Return None →
  get_system_class self obj s = (Return None, s).
Proof.
  intros H. unfold get_system_class.
  by rewrite run_bind, resolve_result, H.
Qed.

Lemma get_system_class_Some self obj s o r :
  result (resolve obj) s = Return (Some o) →
  nodes s !! o = Some r →
  get_system_class self obj s =
  (Return (match r_attrs r !! SYSTEM_TYPE_ATTR_NAME with
           | Some tag => Some (default System (self !! tag))
           | None => None
           end), s).
Proof.
  intros H Hr. unfold get_system_class.
  rewrite run_bind, resolve_result, H.
  unfold fn_setObject, fn_hasAttribute, fn_findPlug_asString, om_read,
    require_attr.
  repeat (rewrite run_bind; simpl; rewrite ?Hr; simpl).
  destruct (r_attrs r !! SYSTEM_TYPE_ATTR_NAME) as [tag|] eqn:Htag.
  - rewrite bool_decide_eq_true_2 by eauto.
    repeat (rewrite run_bind; simpl; rewrite ?Hr, ?Htag; simpl). done.
  - rewrite bool_decide_eq_false_2; [done|]. by intros [??].
Qed.

Lemma find_node_is_Some v s :
  (∃ r, r ∈ nodes s ∧ r_valid r = true ∧ (r_name r = v ∨ r_uuid r = v)) →
  is_Some (find_node v s).
Proof.
  intros (r & Hin & Hv & Hk). unfold find_node.
  apply (list_find_elem_of _ _ r); [done|].
  apply node_matches_true. auto.
Qed.

Lemma get_system_class_absent self o s :
  nodes s !! o = None →
  ∃ e, result (get_system_class self (RefObj o)) s = Raise e ∧ host_error e.
Proof.
  intros Hr. unfold result, get_system_class, resolve.
  rewrite run_bind, run_ret. unfold fn_setObject, om_read.
  rewrite run_bind, Hr. simpl. eexists. split; [done|apply host_error_maya].
Qed.

(** C1, as the code has it.  [get_system_class] reads the scene and leaves
    it alone.  A string that is the name or the UUID of no valid node gives
    [None].  A string that a valid node bears is resolved to such a node,
    and an object is taken as handed in, whether its node is still valid
    or not; for that node: [None] when it has no ['system_type']
    attribute; the registered class when the value of the attribute is a
    key of the registry; and the [System] class, not an error, when it is
    not.  An object that designates no node makes the host raise. *)
Theorem get_system_class_cases (self : gmap string pyclass) (s : Scene) :
  (∀ obj, final (get_system_class self obj) s = s)
  ∧ (∀ v,
       (∀ r, r ∈ nodes s → r_valid r = true → r_name r ≠ v ∧ r_uuid r ≠ v) →
       result (get_system_class self (RefStr v)) s = Return None)
  ∧ (∀ v,
       (∃ r, r ∈ nodes s ∧ r_valid r = true
             ∧ (r_name r = v ∨ r_uuid r = v)) →
       ∃ r, r ∈ nodes s ∧ r_valid r = true ∧ (r_name r = v ∨ r_uuid r = v)
         ∧ (r_attrs r !! SYSTEM_TYPE_ATTR_NAME = None →
              result (get_system_class self (RefStr v)) s = Return None)
         ∧ (∀ tag cls,
              r_attrs r !! SYSTEM_TYPE_ATTR_NAME = Some tag →
              self !! tag = Some cls →
              result (get_system_class self (RefStr v)) s
              = Return (Some cls))
         ∧ (∀ tag,
              r_attrs r !! SYSTEM_TYPE_ATTR_NAME = Some tag →
              self !! tag = None →
              result (get_system_class self (RefStr v)) s
              = Return (Some System)))
  ∧ (∀ o r, nodes s !! o = Some r →
       (r_attrs r !! SYSTEM_TYPE_ATTR_NAME = None →
          result (get_system_class self (RefObj o)) s = Return None)
       ∧ (∀ tag cls,
            r_attrs r !! SYSTEM_TYPE_ATTR_NAME = Some tag →
            self !! tag = Some cls →
            result (get_system_class self (RefObj o)) s = Return (Some cls))
       ∧ (∀ tag,
            r_attrs r !! SYSTEM_TYPE_ATTR_NAME = Some tag →
            self !! tag = None →
            result (get_system_class self (RefObj o)) s
            = Return (Some System)))
  ∧ (∀ o, nodes s !! o = None →
       ∃ e, result (get_system_class self (RefObj o)) s = Raise e
            ∧ host_error e).
Proof.
  assert (∀ obj o r, result (resolve obj) s = Return (Some o) →
            nodes s !! o = Some r →
            (r_attrs r !! SYSTEM_TYPE_ATTR_NAME = None →
               result (get_system_class self obj) s = Return None)
            ∧ (∀ tag cls,
                 r_attrs r !! SYSTEM_TYPE_ATTR_NAME = Some tag →
                 self !! tag = Some cls →
                 result (get_system_class self obj) s = Return (Some cls))
            ∧ (∀ tag,
                 r_attrs r !! SYSTEM_TYPE_ATTR_NAME = Some tag →
                 self !! tag = None →
                 result (get_system_class self obj) s
                 = Return (Some System))) as Hcases.
  { intros obj o r H Hr.
    pose proof (get_system_class_Some self obj s o r H Hr) as Hrun.
    unfold result in H |- *. rewrite Hrun. simpl. split_and!.
    - by intros ->.
    - by intros tag cls -> ->.
    - by intros tag -> ->. }
  split_and!.
  - intros obj. apply get_system_class_reads.
  - intros v Hnone. unfold result.
    rewrite (get_system_class_None self (RefStr v) s); [done|].
    unfold result. by rewrite resolve_str, (find_node_None v s Hnone).
  - intros v [[o r] Hf]%find_node_is_Some.
    destruct (find_node_Some _ _ _ _ Hf) as (Hr & Hv & Hk).
    exists r. do 3 (split; [by eauto using list_elem_of_lookup_2|]).
    apply (Hcases (RefStr v) o r); [|done].
    unfold result. by rewrite resolve_str, Hf.
  - intros o r Hr. by apply (Hcases (RefObj o) o r).
  - intros o Hr. by apply get_system_class_absent.
Qed.

Lemma get_system_class_cases_witness :
  result (get_system_class (factory []) (RefStr "goose")) duck_scene
  = Return None
  ∧ result (get_system_class (factory []) (RefObj 0)) duck_scene
    = Return (Some System)
  ∧ result (get_system_class ∅ (RefObj 0)) duck_scene
    = Return (Some System)
  ∧ ∃ r, r ∈ nodes duck_scene ∧ r_valid r = true
         ∧ (r_name r = "duck" ∨ r_uuid r = "duck").
Proof.
  pose (r := NodeRec "uuid-" "duck" "transform" true None
               (<["system_type" := "System"]> ∅) true).
  destruct (get_system_class_cases (factory []) duck_scene)
    as (_ & Hnone & Hstr & Hobj & _).
  destruct (get_system_class_cases ∅ duck_scene) as (_ & _ & _ & Hobj' & _).
  destruct (Hobj 0 r) as (_ & Hreg & _); [vm_compute; reflexivity|].
  destruct (Hobj' 0 r) as (_ & _ & Hunreg); [vm_compute; reflexivity|].
  destruct (Hstr "duck") as (r' & Hin & Hv & Hk & _).
  { exists r. split_and!; [|done|by left].
    apply (list_elem_of_lookup_2 _ 0). vm_compute. reflexivity. }
  split_and!.
  - apply Hnone. intros r0 Hin0 _. revert Hin0. vm_compute nodes.
    intros ->%list_elem_of_singleton. done.
  - apply (Hreg "System"); vm_compute; reflexivity.
  - apply (Hunreg "System"); vm_compute; reflexivity.
  - eauto.
Defined.

(** C1 as stated fails for an object: the object of a deleted node is
    not looked up again, and the class its tag names is returned. *)
Lemma get_system_class_deleted_object_counterexample :
  ¬ (∀ (self : gmap string pyclass) (obj : ref) (s : Scene),
       match obj with
       | RefStr v => find_node v s = None
       | RefObj o => is_valid s o = false
       end →
       result (get_system_class self obj) s = Return None).
Proof.
  intros H. specialize (H (factory []) (RefObj 0) deleted_scene).
  assert (result (get_system_class (factory []) (RefObj 0)) deleted_scene
          = Return (Some System)) as Hrun by (vm_compute; reflexivity).
  rewrite Hrun in H. assert (Return (Some System) = Return (@None pyclass))
    as Heq; [|discriminate Heq].
  apply H. vm_compute. reflexivity.
Qed.

(** ** [Node.__new__] *)

Lemma Node_new_None cls value s :
  result (resolve value) s = Return None →
  Node_new cls value s = (Return None, s).
Proof.
  intros H. unfold Node_new. by rewrite run_bind, resolve_result, H.
Qed.

Lemma Node_new_Some cls value s o r :
  result (resolve value) s = Return (Some o) →
  nodes s !! o = Some r →
  Node_new cls value s =
  (Return (Some {| __class__ := cls; uuid := r_uuid r; dependnode := o;
                   _fn := if r_dag r then MFnDagNode o
                          else MFnDependencyNode o |}), s).
Proof.
  intros H Hr. unfold Node_new. rewrite run_bind, resolve_result, H.
  unfold MFnDagNode_hasObj, fn_setObject, fn_uuid, om_read.
  repeat (rewrite run_bind; simpl; rewrite ?Hr; simpl).
  destruct (r_dag r); repeat (rewrite run_bind; simpl; rewrite ?Hr; simpl);
    done.
Qed.

Lemma Node_new_Return cls value s n :
  result (Node_new cls value) s = Return (Some n) →
  ∃ r, result (resolve value) s = Return (Some (dependnode n))
       ∧ nodes s !! dependnode n = Some r
       ∧ n = {| __class__ := cls; uuid := r_uuid r;
                dependnode := dependnode n;
                _fn := if r_dag r then MFnDagNode (dependnode n)
                       else MFnDependencyNode (dependnode n) |}.
Proof.
  destruct (result (resolve value) s) as [[o|]|e] eqn:Hres.
  - destruct (nodes s !! o) as [r|] eqn:Hr.
    + unfold result at 1. rewrite (Node_new_Some cls value s o r Hres Hr).
      simpl. intros [= <-]. exists r. by simpl.
    + unfold result at 1, Node_new.
      rewrite run_bind, resolve_result, Hres.
      unfold MFnDagNode_hasObj, fn_setObject, om_read.
      repeat (rewrite run_bind; simpl; rewrite ?Hr; simpl). done.
  - unfold result at 1. by rewrite (Node_new_None cls value s Hres).
  - by destruct (resolve_not_Raise value s e).
Qed.

Lemma Node_new_absent cls o s :
  nodes s !! o = None →
  ∃ e, result (Node_new cls (RefObj o)) s = Raise e ∧ host_error e.
Proof.
  intros Hr. unfold result, Node_new, resolve.
  rewrite run_bind, run_ret. unfold MFnDagNode_hasObj.
  rewrite run_bind, Hr. simpl. unfold fn_setObject, om_read.
  repeat (rewrite run_bind; simpl; rewrite ?Hr; simpl).
  eexists. split; [done|apply host_error_maya].
Qed.

(** C9, as the code has it.  Constructing a wrapper reads the scene and
    leaves it alone.  From a string that is the name or the UUID of no
    valid node the constructor returns [None]; from a string it never
    raises, it returns an instance when a valid node bears the string,
    and only then: the instance is around a valid node of the scene that
    bears the string, with that node's UUID as its string.  An object is
    not looked up: the constructor wraps it as handed in, whether its node
    is still valid or not, and never returns [None] for it; an object that
    designates no node makes the host raise. *)
Theorem Node_new_cases (cls : pyclass) (s : Scene) :
  (∀ value, final (Node_new cls value) s = s)
  ∧ (∀ v,
       (∀ r, r ∈ nodes s → r_valid r = true → r_name r ≠ v ∧ r_uuid r ≠ v) →
       result (Node_new cls (RefStr v)) s = Return None)
  ∧ (∀ v e, result (Node_new cls (RefStr v)) s ≠ Raise e)
  ∧ (∀ v,
       (∃ r, r ∈ nodes s ∧ r_valid r = true
             ∧ (r_name r = v ∨ r_uuid r = v)) →
       ∃ n, result (Node_new cls (RefStr v)) s = Return (Some n))
  ∧ (∀ v n, result (Node_new cls (RefStr v)) s = Return (Some n) →
       __class__ n = cls
       ∧ fn_object (_fn n) = dependnode n
       ∧ ∃ r, nodes s !! dependnode n = Some r
              ∧ uuid n = r_uuid r
              ∧ r_valid r = true
              ∧ (r_name r = v ∨ r_uuid r = v))
  ∧ (∀ o r, nodes s !! o = Some r →
       result (Node_new cls (RefObj o)) s
       = Return (Some {| __class__ := cls; uuid := r_uuid r;
                         dependnode := o;
                         _fn := if r_dag r then MFnDagNode o
                                else MFnDependencyNode o |}))
  ∧ (∀ o, nodes s !! o = None →
       ∃ e, result (Node_new cls (RefObj o)) s = Raise e ∧ host_error e).
Proof.
  split_and!.
  - intros value. apply Node_new_reads.
  - intros v Hnone. unfold result.
    rewrite (Node_new_None cls (RefStr v) s); [done|].
    unfold result. by rewrite resolve_str, (find_node_None v s Hnone).
  - intros v e. unfold result.
    destruct (find_node v s) as [[o r]|] eqn:Hf.
    + destruct (find_node_Some _ _ _ _ Hf) as (Hr & _).
      rewrite (Node_new_Some cls (RefStr v) s o r); [done| |done].
      unfold result. by rewrite resolve_str, Hf.
    + rewrite (Node_new_None cls (RefStr v) s); [done|].
      unfold result. by rewrite resolve_str, Hf.
  - intros v [[o r] Hf]%find_node_is_Some.
    destruct (find_node_Some _ _ _ _ Hf) as (Hr & _).
    eexists. unfold result.
    rewrite (Node_new_Some cls (RefStr v) s o r); [done| |done].
    unfold result. by rewrite resolve_str, Hf.
  - intros v n Hn.
    destruct (Node_new_Return cls (RefStr v) s n Hn) as (r & Hres & Hr & Heq).
    rewrite Heq. simpl. split_and!; [done|by destruct (r_dag r)|].
    exists r. unfold result in Hres. rewrite resolve_str in Hres.
    simpl in Hres. destruct (find_node v s) as [[o' r']|] eqn:Hf; [|done].
    injection Hres as ->.
    apply find_node_Some in Hf as (Hr' & Hv & Hk). by simplify_eq.
  - intros o r Hr. unfold result.
    by rewrite (Node_new_Some cls (RefObj o) s o r eq_refl Hr).
  - intros o Hr. by apply Node_new_absent.
Qed.

Lemma Node_new_cases_witness :
  result (Node_new System (RefStr "goose")) duck_scene = Return None
  ∧ result (Node_new System (RefStr "uuid-")) duck_scene = Return (Some duck)
  ∧ result (Node_new System (RefObj 0)) duck_scene = Return (Some duck).
Proof.
  destruct (Node_new_cases System duck_scene)
    as (_ & Hnone & _ & _ & _ & Hobj & _).
  split_and!.
  - apply Hnone. intros r0 Hin0 _. revert Hin0. vm_compute nodes.
    intros ->%list_elem_of_singleton. done.
  - vm_compute. reflexivity.
  - rewrite (Hobj 0 (NodeRec "uuid-" "duck" "transform" true None
                       (<["system_type" := "System"]> ∅) true));
      vm_compute; reflexivity.
Defined.

(** C9 as stated fails for an object: the constructor wraps the object of
    a deleted node, it does not return [None]. *)
Lemma Node_new_deleted_object_counterexample :
  ¬ (∀ (cls : pyclass) (value : ref) (s : Scene),
       match value with
       | RefStr v => find_node v s = None
       | RefObj o => is_valid s o = false
       end →
       result (Node_new cls value) s = Return None).
Proof.
  intros H. specialize (H System (RefObj 0) deleted_scene).
  assert (result (Node_new System (RefObj 0)) deleted_scene
          = Return (Some duck)) as Hrun by (vm_compute; reflexivity).
  rewrite Hrun in H. assert (Return (Some duck) = Return (@None Node))
    as Heq; [|discriminate Heq].
  apply H. vm_compute. reflexivity.
Qed.

(** ** Creating a node *)

Lemma maintains_final {A} I E (m : M A) s :
  maintains I E m → I s → I (final m s).
Proof.
  intros Hm Hs. specialize (Hm s Hs). unfold final.
  destruct (m s) as [[a|e] s']; [done|by destruct Hm].
Qed.

Lemma find_node_nodes key s1 s2 :
  nodes s1 = nodes s2 → find_node key s1 = find_node key s2.
Proof. unfold find_node. by intros ->. Qed.

Lemma fresh_no_match key s r :
  key ∉ used s → r ∈ nodes s → node_matches key r = false.
Proof.
  intros Hfresh Hr. destruct (node_matches key r) eqn:Hm; [|done].
  apply node_matches_true in Hm as [Hv Hk]. destruct Hfresh.
  unfold used. apply elem_of_union. destruct Hk as [<-|<-].
  - left. apply elem_of_list_to_set, list_elem_of_fmap.
    exists r. split; [done|]. by apply list_elem_of_filter.
  - right. apply elem_of_list_to_set, list_elem_of_fmap. eauto.
Qed.

Lemma find_node_new key s s' r0 :
  key ∉ used s → nodes s' = nodes s ++ [r0] → node_matches key r0 = true →
  find_node key s' = Some (length (nodes s), r0).
Proof.
  intros Hfresh Hn Hm. unfold find_node. rewrite Hn.
  rewrite list_find_app_r.
  - simpl. rewrite decide_True by done. reflexivity.
  - apply list_find_None, Forall_forall. intros r Hr.
    by rewrite (fresh_no_match key s r Hfresh Hr).
Qed.

Lemma find_node_first key s o r :
  find_node key s = Some (o, r) →
  ∃ rest, filter (λ r, node_matches key r = true) (nodes s) = r :: rest.
Proof.
  unfold find_node. generalize (nodes s). intros l. revert o.
  induction l as [|x l IH]; intros o; simpl; [done|].
  rewrite filter_cons. case_decide as Hx.
  - intros [= <- <-]. eauto.
  - destruct (list_find _ l) as [[i y]|] eqn:Hl; simpl; [|done].
    intros [= <- <-]. by apply (IH i).
Qed.

Lemma find_node_own_name s o r :
  nodes s !! o = Some r → r_valid r = true →
  is_Some (find_node (r_name r) s).
Proof.
  intros Hr Hv. unfold find_node.
  apply (list_find_elem_of _ _ r); [by eapply list_elem_of_lookup_2|].
  apply node_matches_true. auto.
Qed.

Lemma find_node_set_attr key attr value s o r :
  find_node key s = Some (o, r) →
  find_node key (with_nodes (alter (set_attr attr value) o) s)
  = Some (o, set_attr attr value r).
Proof.
  unfold find_node. simpl. intros (Hr & Hm & Hleast)%list_find_Some.
  apply list_find_Some. split_and!.
  - by rewrite list_lookup_alter_eq, Hr.
  - done.
  - intros j y Hj Hlt. apply (Hleast j y); [|done].
    rewrite list_lookup_alter_ne in Hj by lia. done.
Qed.

Lemma created_fresh nodetype name par s :
  (r_name (created nodetype name par s) ∉ used s)
  ∧ (r_uuid (created nodetype name par s) ∉ used s).
Proof.
  split; simpl.
  - intros H. eapply fresh_string_of_set_fresh, elem_of_union_r, H.
  - apply fresh_string_of_set_fresh.
Qed.

Lemma cmds_createNode_run nodetype name parent par s :
  parent_object parent s = Some par →
  cmds_createNode nodetype name parent s =
  (Return (r_name (created nodetype name par s)),
   {| nodes := nodes s ++ [created nodetype name par s];
      namespaces :=
        add_namespace (namespace_of (r_name (created nodetype name par s)))
                      (namespaces s);
      selection := selection s;
      calls := calls s ++ [Call_createNode nodetype name parent] |}).
Proof.
  intros Hpar. unfold cmds_createNode, log_call, modify, get_scene.
  rewrite run_bind. simpl.
  destruct parent as [p|]; simpl in Hpar.
  - unfold lookup_node. rewrite !run_bind. simpl.
    change (find_node p (with_call (Call_createNode nodetype name (Some p)) s))
      with (find_node p s).
    destruct (find_node p s) as [[i r]|]; simplify_eq/=. reflexivity.
  - simplify_eq/=. reflexivity.
Qed.

Lemma cmds_ls_run obj s :
  cmds_ls obj s =
  (Return (r_name <$> filter (λ r, node_matches obj r = true) (nodes s)),
   with_call (Call_ls obj) s).
Proof. reflexivity. Qed.

Lemma cmds_attributeQuery_ex_run attr obj s o r :
  find_node obj s = Some (o, r) →
  cmds_attributeQuery_ex attr obj s =
  (Return (bool_decide (is_Some (r_attrs r !! attr))),
   with_call (Call_attributeQuery_ex attr obj) s).
Proof.
  intros Hf. unfold cmds_attributeQuery_ex, log_call, modify, lookup_node.
  rewrite !run_bind. simpl.
  change (find_node obj (with_call (Call_attributeQuery_ex attr obj) s))
    with (find_node obj s). by rewrite Hf.
Qed.

Lemma cmds_addAttr_run obj ln dt s o r :
  find_node obj s = Some (o, r) → r_attrs r !! ln = None →
  cmds_addAttr obj ln dt s =
  (Return (),
   with_nodes (alter (set_attr ln "") o) (with_call (Call_addAttr obj ln dt) s)).
Proof.
  intros Hf Hln. unfold cmds_addAttr, log_call, modify, lookup_node.
  rewrite !run_bind. simpl.
  change (find_node obj (with_call (Call_addAttr obj ln dt) s))
    with (find_node obj s). rewrite Hf. simpl. by rewrite Hln.
Qed.

Lemma cmds_setAttr_run obj attr value s o r :
  str_contains "." attr = false →
  find_node obj s = Some (o, r) → is_Some (r_attrs r !! attr) →
  cmds_setAttr (obj +:+ "." +:+ attr) value s =
  (Return (),
   with_nodes (alter (set_attr attr value) o)
     (with_call (Call_setAttr (obj +:+ "." +:+ attr) value) s)).
Proof.
  intros Hdot Hf [v Hv]. unfold cmds_setAttr, log_call, modify, parse_plug.
  rewrite run_bind. simpl.
  change ("." +:+ attr) with (String "." attr).
  rewrite (rsplit1_app "." obj attr Hdot).
  unfold lookup_node, require_attr.
  repeat (rewrite run_bind; simpl).
  change (find_node obj (with_call (Call_setAttr (obj +:+ String "." attr) value) s))
    with (find_node obj s). rewrite Hf. simpl. by rewrite Hv.
Qed.

Lemma alter_insert {A} (f : A → A) (l : list A) i x :
  l !! i = Some x → alter f i l = <[i := f x]> l.
Proof.
  intros Hx. apply list_eq. intros j. destruct (decide (i = j)) as [->|Hne].
  - rewrite list_lookup_alter_eq, Hx. simpl.
    by rewrite list_lookup_insert_eq by by eapply lookup_lt_Some.
  - by rewrite list_lookup_alter_ne, list_lookup_insert_ne.
Qed.

Lemma set_attr_twice attr v w r :
  set_attr attr w (set_attr attr v r) = set_attr attr w r.
Proof. unfold set_attr. simpl. by rewrite insert_insert_eq. Qed.

(** [add_system_attr] makes sure the attribute is there and sets it: the
    designated node gets the value, nothing else changes in the nodes. *)
Lemma add_system_attr_run obj value s o r :
  find_node obj s = Some (o, r) →
  ∃ s', add_system_attr obj value s = (Return (), s')
        ∧ nodes s' = <[o := set_attr SYSTEM_TYPE_ATTR_NAME value r]> (nodes s)
        ∧ namespaces s' = namespaces s
        ∧ selection s' = selection s
        ∧ ∃ more, calls s' = calls s ++ more.
Proof.
  intros Hf. pose proof (find_node_Some _ _ _ _ Hf) as (Hr & _).
  unfold add_system_attr.
  rewrite (run_bind_Return _ _ _ _ _
             (cmds_attributeQuery_ex_run SYSTEM_TYPE_ATTR_NAME obj s o r Hf)).
  destruct (r_attrs r !! SYSTEM_TYPE_ATTR_NAME) as [v|] eqn:Hattr.
  - rewrite bool_decide_eq_true_2 by eauto. simpl.
    rewrite run_bind, run_ret. eexists. split.
    { apply (cmds_setAttr_run _ _ _ _ o r); [done| |by eauto].
      rewrite <- Hf. by apply find_node_nodes. }
    simpl. split_and!; [by apply alter_insert|done|done|].
    rewrite <- app_assoc. eauto.
  - rewrite bool_decide_eq_false_2 by (by intros [??]). simpl.
    erewrite run_bind_Return; last first.
    { apply (cmds_addAttr_run _ _ _ _ o r); [|done].
      rewrite <- Hf. by apply find_node_nodes. }
    eexists. split.
    { apply (cmds_setAttr_run _ _ _ _ o
               (set_attr SYSTEM_TYPE_ATTR_NAME "" r)); [done| |].
      - apply find_node_set_attr.
        rewrite <- Hf. by apply find_node_nodes.
      - simpl. rewrite lookup_insert_eq. eauto. }
    simpl. split_and!; [|done|done|].
    + rewrite (alter_insert _ _ _ _ Hr).
      rewrite (alter_insert _ _ _ (set_attr SYSTEM_TYPE_ATTR_NAME "" r)).
      * by rewrite list_insert_insert_eq, set_attr_twice.
      * apply list_lookup_insert_eq. by eapply lookup_lt_Some.
    + rewrite <- !app_assoc. eauto.
Qed.

Lemma used_nodes s1 s2 : nodes s1 = nodes s2 → used s1 = used s2.
Proof. unfold used. by intros ->. Qed.

Lemma created_nodes nodetype name par s1 s2 :
  nodes s1 = nodes s2 →
  created nodetype name par s1 = created nodetype name par s2.
Proof. intros H. unfold created. by rewrite (used_nodes s1 s2 H). Qed.

(** [Node.create], when the parent (if any) can be found: one node is
    added, of the class's node type and with the name asked for made
    unique, and the instance returned wraps it. *)
Lemma Node_create_run cls name parent s :
  (∀ p, parent = Some p → is_Some (find_node p s)) →
  ∃ par parent' s1,
    let r0 := created (_NODETYPE cls) (create_name cls name) par s in
    Node_create cls name parent s =
      (Return (Some {| __class__ := cls; uuid := r_uuid r0;
                       dependnode := length (nodes s);
                       _fn := if r_dag r0 then MFnDagNode (length (nodes s))
                              else MFnDependencyNode (length (nodes s)) |}),
       s1)
    ∧ nodes s1 = nodes s ++ [r0]
    ∧ selection s1 = selection s
    ∧ (∃ before,
         calls s1 = before ++ [Call_createNode (_NODETYPE cls)
                                 (create_name cls name) parent']).
Proof.
  intros Hparent.
  assert (∃ par parent' s0 s1,
    (match parent with
     | Some p => l ← cmds_ls p; p0 ← py_index0 l; mret (Some p0)
     | None => mret None
     end) s = (Return parent', s0)
    ∧ nodes s0 = nodes s ∧ selection s0 = selection s
    ∧ cmds_createNode (_NODETYPE cls) (create_name cls name) parent' s0 =
      (Return (r_name (created (_NODETYPE cls) (create_name cls name) par s)),
       s1)
    ∧ nodes s1 =
      nodes s ++ [created (_NODETYPE cls) (create_name cls name) par s]
    ∧ selection s1 = selection s
    ∧ ∃ before, calls s1 = before ++ [Call_createNode (_NODETYPE cls)
                                        (create_name cls name) parent'])
    as (par & parent' & s0 & s1 & Hpar & Hn0 & Hsel0 & Hcreate & Hn1 & Hsel1
        & Hcalls).
  { destruct parent as [p|].
    - destruct (Hparent p eq_refl) as [[i rp] Hf].
      destruct (find_node_first _ _ _ _ Hf) as [rest Hrest].
      destruct (find_node_Some _ _ _ _ Hf) as (Hrp & Hv & _).
      destruct (find_node_own_name s i rp Hrp Hv) as [[j rj] Hj].
      exists (Some j), (Some (r_name rp)), (with_call (Call_ls p) s).
      eexists. split_and!.
      + rewrite run_bind, cmds_ls_run, Hrest. reflexivity.
      + done.
      + done.
      + rewrite (cmds_createNode_run _ _ _ (Some j)).
        * by rewrite (created_nodes _ _ _ (with_call (Call_ls p) s) s).
        * simpl. change (find_node (r_name rp) (with_call (Call_ls p) s))
            with (find_node (r_name rp) s). by rewrite Hj.
      + done.
      + done.
      + simpl. eauto.
    - exists None, None, s. eexists. split_and!.
      + reflexivity.
      + done.
      + done.
      + by apply cmds_createNode_run.
      + done.
      + done.
      + simpl. eauto. }
  exists par, parent', s1. cbv zeta. split_and!; [|done..].
  unfold Node_create.
  rewrite (run_bind_Return _ _ _ _ _ Hpar).
  rewrite (run_bind_Return _ _ _ _ _ Hcreate).
  destruct (created_fresh (_NODETYPE cls) (create_name cls name) par s)
    as [Hfresh _].
  apply (Node_new_Some cls (RefStr _) s1 (length (nodes s))).
  - unfold result. rewrite resolve_str.
    rewrite (find_node_new _ s s1 _ Hfresh Hn1); [done|].
    apply node_matches_true. auto.
  - rewrite Hn1. by apply list_lookup_middle.
Qed.

(** [System.create], when the parent (if any) can be found. *)
Lemma System_create_run cls name parent s :
  (∀ p, parent = Some p → is_Some (find_node p s)) →
  ∃ par parent' s',
    let r0 := created (_NODETYPE cls) (create_name cls name) par s in
    let o := length (nodes s) in
    System_create cls name parent s =
      (Return {| __class__ := cls; uuid := r_uuid r0; dependnode := o;
                 _fn := if r_dag r0 then MFnDagNode o
                        else MFnDependencyNode o |}, s')
    ∧ nodes s' =
      nodes s ++ [set_attr SYSTEM_TYPE_ATTR_NAME (__name__ cls) r0]
    ∧ selection s' = selection s
    ∧ Call_createNode (_NODETYPE cls) (create_name cls name) parent'
      ∈ calls s'.
Proof.
  intros Hparent.
  destruct (Node_create_run cls name parent s Hparent)
    as (par & parent' & s1 & Hcreate & Hn1 & Hsel1 & before & Hcalls1).
  cbv zeta in Hcreate.
  destruct (created_fresh (_NODETYPE cls) (create_name cls name) par s)
    as [Hfresh _].
  assert (r_valid (created (_NODETYPE cls) (create_name cls name) par s)
          = true) as Hvalid by reflexivity.
  remember (created (_NODETYPE cls) (create_name cls name) par s) as r0
    eqn:Hr0def.
  remember (length (nodes s)) as o eqn:Ho.
  remember {| __class__ := cls; uuid := r_uuid r0; dependnode := o;
              _fn := if r_dag r0 then MFnDagNode o
                     else MFnDependencyNode o |} as n eqn:Hn.
  assert (nodes s1 !! o = Some r0) as Hr0
    by (rewrite Hn1, Ho; by apply list_lookup_middle).
  assert (find_node (r_name r0) s1 = Some (o, r0)) as Hfind.
  { rewrite Ho. apply (find_node_new _ s s1 r0 Hfresh Hn1).
    apply node_matches_true. auto. }
  assert (Node_get_name n s1 = (Return (r_name r0), s1)) as Hname.
  { unfold Node_get_name. rewrite (run_bind_Return _ _ s1 (_fn n) s1).
    - unfold fn_partialPathName, fn_name, om_read. rewrite Hn. simpl.
      destruct (r_dag r0); simpl; by rewrite Hr0.
    - apply Node_fn_valid. unfold is_valid. rewrite Hn. simpl.
      by rewrite Hr0. }
  destruct (add_system_attr_run (r_name r0) (__name__ cls) s1 o r0 Hfind)
    as (s' & Hadd & Hn' & _ & Hsel' & more & Hcalls').
  exists par, parent', s'. cbv zeta. rewrite <- ?Hr0def, <- ?Ho, <- ?Hn.
  split_and!.
  - unfold System_create. rewrite (run_bind_Return _ _ _ _ _ Hcreate).
    unfold System_create_attributes.
    rewrite run_bind, (run_bind_Return _ _ _ _ _ Hname).
    replace (__class__ n) with cls by by rewrite Hn.
    by rewrite Hadd.
  - rewrite Hn', Hn1, Ho.
    rewrite insert_app_r_alt by done. by rewrite Nat.sub_diag.
  - congruence.
  - rewrite Hcalls', Hcalls1. set_solver.
Qed.

Lemma create_name_cases cls :
  create_name cls None = create_name cls (Some (_NODETYPE cls))
  ∧ (endswith ":" (_NODETYPE cls) = false →
       create_name cls None = _NODETYPE cls)
  ∧ (∀ name, name ≠ "" → endswith ":" name = true →
       create_name cls (Some name) = name +:+ DEFAULT_NAME cls)
  ∧ (∀ name, name ≠ "" → endswith ":" name = false →
       create_name cls (Some name) = name).
Proof.
  unfold create_name. split_and!.
  - by case_bool_decide as H; [rewrite H|].
  - by intros ->.
  - intros name Hne Hend. rewrite bool_decide_eq_false_2 by done.
    by rewrite Hend.
  - intros name Hne Hend. rewrite bool_decide_eq_false_2 by done.
    by rewrite Hend.
Qed.

Lemma cmds_getAttr_run obj attr s o r v :
  str_contains "." attr = false →
  find_node obj s = Some (o, r) → r_attrs r !! attr = Some v →
  cmds_getAttr (obj +:+ "." +:+ attr) s =
  (Return v, with_call (Call_getAttr (obj +:+ "." +:+ attr)) s).
Proof.
  intros Hdot Hf Hv. unfold cmds_getAttr, log_call, modify, parse_plug.
  rewrite run_bind. simpl.
  change ("." +:+ attr) with (String "." attr).
  rewrite (rsplit1_app "." obj attr Hdot).
  unfold lookup_node, require_attr.
  repeat (rewrite run_bind; simpl).
  change (find_node obj (with_call (Call_getAttr (obj +:+ String "." attr)) s))
    with (find_node obj s). rewrite Hf. simpl. by rewrite Hv.
Qed.

Lemma Node_get_name_run n s r :
  is_valid s (dependnode n) = true →
  nodes s !! fn_object (_fn n) = Some r →
  Node_get_name n s = (Return (r_name r), s).
Proof.
  intros Hv Hr. unfold Node_get_name.
  rewrite (run_bind_Return _ _ _ _ _ (Node_fn_valid n s Hv)).
  unfold fn_partialPathName, fn_name, om_read.
  destruct (_fn n); simpl in *; by rewrite Hr.
Qed.

Lemma System_type_run n s r v :
  is_valid s (dependnode n) = true →
  nodes s !! fn_object (_fn n) = Some r →
  find_node (r_name r) s = Some (fn_object (_fn n), r) →
  r_attrs r !! SYSTEM_TYPE_ATTR_NAME = Some v →
  result (System_type n) s = Return v.
Proof.
  intros Hv Hr Hf Hattr. unfold result, System_type.
  rewrite (run_bind_Return _ _ _ _ _ (Node_get_name_run n s r Hv Hr)).
  by rewrite (cmds_getAttr_run (r_name r) SYSTEM_TYPE_ATTR_NAME s _ r v
                eq_refl Hf Hattr).
Qed.

Lemma find_node_None_filter key s :
  find_node key s = None →
  filter (λ r, node_matches key r = true) (nodes s) = [].
Proof.
  unfold find_node. intros H%list_find_None.
  induction H as [|r l Hr _ IH]; [done|].
  rewrite filter_cons. by case_decide.
Qed.

Lemma System_create_Return_parent cls name parent s n s' :
  System_create cls name parent s = (Return n, s') →
  ∀ p, parent = Some p → is_Some (find_node p s).
Proof.
  intros Hrun p ->. destruct (find_node p s) as [x|] eqn:Hf; [eauto|].
  exfalso. revert Hrun. unfold System_create, Node_create.
  rewrite !run_bind, cmds_ls_run, (find_node_None_filter p s Hf).
  done.
Qed.

(** ** [System.create] *)

(** C7.  For a class [cls] of systems, [create] returns when the parent
    (if one is given) can be found; and whenever it returns, it has added
    one node to the scene and returns its wrapper: the node has the node
    type of the class, is valid and carries the ['system_type'] attribute
    with the name of the class as value.  The name asked of the host is
    the node type when no name is given, and a name that ends with [':']
    gets the default name of the class appended. *)
Theorem System_create_tags (cls : pyclass) (name parent : option string)
    (s : Scene) :
  ((∀ p, parent = Some p → is_Some (find_node p s)) →
     ∃ n s', System_create cls name parent s = (Return n, s'))
  ∧ (∀ n s', System_create cls name parent s = (Return n, s') →
       ∃ r parent',
         __class__ n = cls
         ∧ dependnode n = length (nodes s)
         ∧ nodes s' = nodes s ++ [r]
         ∧ uuid n = r_uuid r
         ∧ r_type r = _NODETYPE cls
         ∧ r_valid r = true
         ∧ r_attrs r !! SYSTEM_TYPE_ATTR_NAME = Some (__name__ cls)
         ∧ result (System_type n) s' = Return (__name__ cls)
         ∧ Call_createNode (_NODETYPE cls) (create_name cls name) parent'
           ∈ calls s')
  ∧ create_name cls None = create_name cls (Some (_NODETYPE cls))
  ∧ (endswith ":" (_NODETYPE cls) = false →
       create_name cls None = _NODETYPE cls)
  ∧ (∀ nm, nm ≠ "" → endswith ":" nm = true →
       create_name cls (Some nm) = nm +:+ DEFAULT_NAME cls)
  ∧ (∀ nm, nm ≠ "" → endswith ":" nm = false →
       create_name cls (Some nm) = nm).
Proof.
  split; [|split; [|apply create_name_cases]].
  { intros Hparent.
    destruct (System_create_run cls name parent s Hparent)
      as (par & parent' & s' & Hrun & _). eauto. }
  intros n s' Hreturn.
  pose proof (System_create_Return_parent _ _ _ _ _ _ Hreturn) as Hparent.
  destruct (System_create_run cls name parent s Hparent)
    as (par & parent' & s'' & Hrun & Hn' & _ & Hcall).
  cbv zeta in Hrun. rewrite Hreturn in Hrun.
  destruct (created_fresh (_NODETYPE cls) (create_name cls name) par s)
    as [Hfresh _].
  assert (r_valid (created (_NODETYPE cls) (create_name cls name) par s)
          = true) as Hvalid by reflexivity.
  assert (r_type (created (_NODETYPE cls) (create_name cls name) par s)
          = _NODETYPE cls) as Htype by reflexivity.
  remember (created (_NODETYPE cls) (create_name cls name) par s) as r0
    eqn:Hr0def.
  injection Hrun as Hn <-.
  set (r := set_attr SYSTEM_TYPE_ATTR_NAME (__name__ cls) r0) in *.
  assert (nodes s' !! length (nodes s) = Some r) as Hr
    by (rewrite Hn'; by apply list_lookup_middle).
  assert (r_attrs r !! SYSTEM_TYPE_ATTR_NAME = Some (__name__ cls)) as Hattr
    by apply lookup_insert_eq.
  exists r, parent'. rewrite Hn. simpl. split_and!; try done.
  apply (System_type_run _ s' r).
  - unfold is_valid. simpl. by rewrite Hr.
  - simpl. by destruct (r_dag r0).
  - replace (fn_object _) with (length (nodes s))
      by (simpl; by destruct (r_dag r0)).
    apply (find_node_new _ s s' r Hfresh Hn').
    apply node_matches_true. auto.
  - done.
Qed.

Lemma System_create_tags_witness :
  ∃ n s', System_create System (Some "rig:") (Some "duck") duck_scene
          = (Return n, s')
          ∧ result (System_type n) s' = Return "System"
          ∧ result (Node_get_name n) s' = Return "rig:grp".
Proof.
  destruct (System_create_tags System (Some "rig:") (Some "duck") duck_scene)
    as (Hreturns & Htagged & _).
  destruct Hreturns as (n & s' & Hrun).
  { intros p [= <-]. vm_compute. eauto. }
  destruct (Htagged n s' Hrun)
    as (r & parent' & _ & _ & _ & _ & _ & _ & _ & Htype & _).
  exists n, s'. split_and!; [done..|].
  assert (System_create System (Some "rig:") (Some "duck") duck_scene
          = (result (System_create System (Some "rig:") (Some "duck"))
               duck_scene,
             final (System_create System (Some "rig:") (Some "duck"))
               duck_scene)) as Heq.
  { unfold result, final.
    by destruct (System_create System (Some "rig:") (Some "duck")
                   duck_scene). }
  rewrite Hrun in Heq. injection Heq as -> ->. vm_compute. reflexivity.
Defined.

Lemma bound_inv n s :
  bound n s →
  ∃ r, nodes s !! dependnode n = Some r
       ∧ n = {| __class__ := __class__ n; uuid := r_uuid r;
                dependnode := dependnode n;
                _fn := if r_dag r then MFnDagNode (dependnode n)
                       else MFnDependencyNode (dependnode n) |}.
Proof.
  intros Hb.
  destruct (Node_new_Return (__class__ n) (RefObj (dependnode n)) s n)
    as (r & _ & Hr & Hn); [unfold result; by rewrite Hb|eauto].
Qed.

Lemma keeps_bound n s s' : keeps s s' → bound n s → bound n s'.
Proof.
  intros Hk Hb. destruct (bound_inv n s Hb) as (r & Hr & Hn).
  destruct (Hk _ _ Hr) as (r' & Hr' & Hi). unfold bound.
  rewrite (Node_new_Some (__class__ n) (RefObj (dependnode n)) s'
             (dependnode n) r' eq_refl Hr').
  unfold ident in Hi. injection Hi as Hu Hd _ _.
  rewrite Hu, Hd. by rewrite <- Hn.
Qed.

(** ** [Factory.get_system] *)

Lemma get_system_None self obj s :
  result (get_system_class self obj) s = Return None →
  result (get_system self obj) s = Return None.
Proof.
  intros H. unfold result at 1, get_system. rewrite run_bind.
  by rewrite (reads_result _ s (get_system_class_reads self obj)), H.
Qed.

Lemma Node_serialize_run n s name :
  result (Node_get_name n) s = Return name →
  result (Node_serialize n) s = Return [("type", __name__ (__class__ n))].
Proof.
  intros H. unfold result at 1, Node_serialize, Node_repr.
  rewrite !run_bind.
  by rewrite (reads_result _ s (Node_get_name_reads n)), H.
Qed.

(** The factory finds a wrapper again from its UUID in any scene where
    the UUID designates the wrapper's node and the node carries the tag of
    the wrapper's class. *)
Lemma get_system_bound self n s r tag :
  bound n s →
  find_node (uuid n) s = Some (dependnode n, r) →
  r_attrs r !! SYSTEM_TYPE_ATTR_NAME = Some tag →
  self !! tag = Some (__class__ n) →
  get_system self (RefStr (uuid n)) s = (Return (Some n), s).
Proof.
  intros Hb Hf Htag Hreg.
  destruct (find_node_Some _ _ _ _ Hf) as (Hr & _).
  destruct (bound_inv n s Hb) as (r' & Hr' & Hn).
  assert (r' = r) as -> by congruence.
  assert (result (resolve (RefStr (uuid n))) s
          = Return (Some (dependnode n))) as Hres.
  { unfold result. by rewrite resolve_str, Hf. }
  unfold get_system.
  rewrite (run_bind_Return _ _ s (Some (__class__ n)) s).
  - rewrite (Node_new_Some _ _ s (dependnode n) r Hres Hr). by rewrite <- Hn.
  - rewrite (get_system_class_Some self _ s _ r Hres Hr).
    by rewrite Htag, Hreg.
Qed.

(** C6.  A node made by [create] (or by [deserialize], which is [create])
    through a class registered under its own name is found again by the
    factory from its UUID: [get_system] returns an instance of that class
    bound to that UUID, equal to the node; what [serialize] records as the
    type is the key the registry holds the class under.  The same holds in
    any later scene where the UUID still designates the node and the node
    still carries the tag.  And when [get_system_class] finds no class,
    [get_system] returns [None]. *)
Theorem get_system_of_created (self : gmap string pyclass) (cls : pyclass)
    (name parent : option string) (s s' : Scene) (n : Node) :
  self !! __name__ cls = Some cls →
  System_deserialize cls name parent s = (Return n, s') →
  System_create cls name parent s = (Return n, s')
  ∧ result (get_system_class self (RefStr (uuid n))) s' = Return (Some cls)
  ∧ get_system self (RefStr (uuid n)) s' = (Return (Some n), s')
  ∧ (∀ n', result (get_system self (RefStr (uuid n))) s' = Return (Some n') →
       __class__ n' = cls ∧ uuid n' = uuid n ∧ Node_eq n n' = true)
  ∧ (∃ tag, result (Node_serialize n) s' = Return [("type", tag)]
            ∧ self !! tag = Some cls)
  ∧ (∀ s2 r, bound n s2 →
       find_node (uuid n) s2 = Some (dependnode n, r) →
       r_attrs r !! SYSTEM_TYPE_ATTR_NAME = Some (__name__ cls) →
       get_system self (RefStr (uuid n)) s2 = (Return (Some n), s2))
  ∧ (∀ obj s0, result (get_system_class self obj) s0 = Return None →
       result (get_system self obj) s0 = Return None).
Proof.
  intros Hreg Hrun. unfold System_deserialize in Hrun.
  pose proof (System_create_Return_parent _ _ _ _ _ _ Hrun) as Hparent.
  destruct (System_create_run cls name parent s Hparent)
    as (par & parent' & s'' & Hrun' & Hn' & _ & _).
  cbv zeta in Hrun'. rewrite Hrun in Hrun'.
  destruct (created_fresh (_NODETYPE cls) (create_name cls name) par s)
    as [Hfresh_name Hfresh].
  assert (r_valid (created (_NODETYPE cls) (create_name cls name) par s)
          = true) as Hvalid by reflexivity.
  remember (created (_NODETYPE cls) (create_name cls name) par s) as r0
    eqn:Hr0def.
  injection Hrun' as Hn <-.
  set (r := set_attr SYSTEM_TYPE_ATTR_NAME (__name__ cls) r0) in *.
  set (o := length (nodes s)) in *.
  assert (nodes s' !! o = Some r) as Hr
    by (rewrite Hn'; by apply list_lookup_middle).
  assert (uuid n = r_uuid r0) as Huuid by by rewrite Hn.
  assert (result (resolve (RefStr (uuid n))) s' = Return (Some o)) as Hres.
  { unfold result. rewrite resolve_str, Huuid.
    rewrite (find_node_new _ s s' r Hfresh Hn'); [done|].
    apply node_matches_true. auto. }
  assert (get_system_class self (RefStr (uuid n)) s'
          = (Return (Some cls), s')) as Hcls.
  { rewrite (get_system_class_Some self _ s' o r Hres Hr).
    replace (r_attrs r !! SYSTEM_TYPE_ATTR_NAME) with (Some (__name__ cls))
      by (symmetry; apply lookup_insert_eq).
    by rewrite Hreg. }
  assert (get_system self (RefStr (uuid n)) s' = (Return (Some n), s'))
    as Hget.
  { unfold get_system. rewrite (run_bind_Return _ _ _ _ _ Hcls).
    rewrite (Node_new_Some cls _ s' o r Hres Hr). by rewrite Hn. }
  split_and!.
  - done.
  - unfold result. by rewrite Hcls.
  - done.
  - intros n'. unfold result. rewrite Hget. simpl. intros [= <-].
    split_and!; [by rewrite Hn|done|by apply Node_eq_true].
  - exists (__name__ cls). split; [|done].
    replace (__name__ cls) with (__name__ (__class__ n)) by by rewrite Hn.
    apply (Node_serialize_run n s' (r_name r)).
    unfold result. rewrite (Node_get_name_run n s' r); [done| |].
    + unfold is_valid. rewrite Hn. simpl. by rewrite Hr.
    + rewrite Hn. simpl. by destruct (r_dag r0).
  - intros s2 r2 Hb Hf Htag.
    apply (get_system_bound self n s2 r2 (__name__ cls) Hb Hf Htag).
    by rewrite Hn.
  - intros obj s0. apply get_system_None.
Qed.

Lemma get_system_of_created_witness :
  get_system (factory []) (RefStr "uuid-") duck_scene
  = (Return (Some duck), duck_scene).
Proof.
  destruct (get_system_of_created (factory []) System (Some "duck") None
              empty_scene duck_scene duck) as (_ & _ & H & _).
  - vm_compute. reflexivity.
  - vm_compute. reflexivity.
  - exact H.
Defined.

(** ** [Node.rename] *)

Lemma Node_rename_keeps n value s :
  is_valid s (dependnode n) = true →
  keeps s (final (Node_rename n value) s).
Proof.
  intros Hv.
  apply (maintains_final (keeps s) _ _ s
           (Node_rename_maintains (keeps s) n
              (λ s' Hk, keeps_is_valid s s' _ Hk Hv) value)).
  reflexivity.
Qed.

(** C4.  Renaming a valid node, whatever the new name and whether the host
    accepts it or not, leaves the UUID of the external node and its
    validity as they were: the wrapper built around the same object after
    the rename is the wrapper built before, with the same string, the same
    hash and the same equalities.  The hash of a node is a function of its
    UUID string alone. *)
Theorem rename_keeps_identity (str_hash : string → Z) (n : Node)
    (value : string) (s : Scene) :
  bound n s →
  is_valid s (dependnode n) = true →
  bound n (final (Node_rename n value) s)
  ∧ is_valid (final (Node_rename n value) s) (dependnode n) = true
  ∧ result (fn_uuid (_fn n)) (final (Node_rename n value) s)
    = Return (uuid n)
  ∧ (∀ n', result (Node_new (__class__ n) (RefObj (dependnode n)))
             (final (Node_rename n value) s) = Return (Some n') →
       uuid n' = uuid n
       ∧ Node_hash str_hash n' = Node_hash str_hash n
       ∧ ∀ m, Node_eq n' m = Node_eq n m ∧ Node_eq m n' = Node_eq m n)
  ∧ (∀ a b, uuid a = uuid b → Node_hash str_hash a = Node_hash str_hash b).
Proof.
  intros Hb Hv.
  pose proof (Node_rename_keeps n value s Hv) as Hk.
  pose proof (keeps_bound n s _ Hk Hb) as Hb'.
  split_and!.
  - done.
  - by apply (keeps_is_valid s).
  - destruct (bound_inv n _ Hb') as (r' & Hr' & Hn).
    unfold result, fn_uuid, om_read.
    replace (fn_object (_fn n)) with (dependnode n)
      by (rewrite Hn; simpl; by destruct (r_dag r')).
    rewrite Hr'. simpl. by rewrite Hn.
  - intros n'. unfold result. rewrite Hb'. simpl. by intros [= <-].
  - intros a b Hab. unfold Node_hash. by rewrite Hab.
Qed.

Lemma rename_keeps_identity_witness :
  result (Node_rename duck "ns:duck") duck_scene = Return ()
  ∧ result (Node_get_name duck) (final (Node_rename duck "ns:duck") duck_scene)
    = Return "ns:duck"
  ∧ bound duck (final (Node_rename duck "ns:duck") duck_scene).
Proof.
  destruct (rename_keeps_identity (λ _, 0%Z) duck "ns:duck" duck_scene)
    as (H & _).
  - vm_compute. reflexivity.
  - vm_compute. reflexivity.
  - split_and!; [vm_compute; reflexivity..|exact H].
Defined.

(** * Further properties *)

(** ** Hashing and equality together *)

(** X1.  Equal nodes hash alike, as a dictionary key requires; the hash
    does not look at the class, so wrappers of two classes around one UUID
    hash alike and are still unequal. *)
Theorem Node_eq_hash (str_hash : string → Z) (a b : Node) :
  (Node_eq a b = true → Node_hash str_hash a = Node_hash str_hash b)
  ∧ (uuid a = uuid b → __class__ a ≠ __class__ b →
       Node_hash str_hash a = Node_hash str_hash b ∧ Node_eq a b = false).
Proof.
  split.
  - intros [_ Hu]%Node_eq_true. unfold Node_hash. by rewrite Hu.
  - intros Hu Hc. split; [unfold Node_hash; by rewrite Hu|].
    destruct (Node_eq a b) eqn:He; [|done].
    by apply Node_eq_true in He as [? _].
Qed.

Lemma Node_eq_hash_witness :
  Node_hash (λ x, Z.of_nat (String.length x)) duck
    = Node_hash (λ x, Z.of_nat (String.length x)) (MkNode NodeClass "uuid-" 7 (MFnDagNode 7))
  ∧ Node_eq duck (MkNode NodeClass "uuid-" 7 (MFnDagNode 7)) = false.
Proof.
  apply (Node_eq_hash (λ x, Z.of_nat (String.length x)) duck
           (MkNode NodeClass "uuid-" 7 (MFnDagNode 7))).
  - reflexivity.
  - discriminate.
Defined.

(** ** The registry as a whole *)

Lemma register_lookup_cases self h key c :
  register self h !! key = Some c →
  (c ∈ preorder h ∧ __name__ c = key) ∨ self !! key = Some c.
Proof.
  rewrite register_preorder, register_list_lookup.
  destruct (last_named key (preorder h)) as [c'|] eqn:Hl; [|auto].
  intros [= <-]. left. by apply last_named_Some.
Qed.

Lemma register_dom self h :
  dom (register self h)
  = dom self ∪ list_to_set (__name__ <$> preorder h).
Proof.
  apply set_eq. intros key.
  rewrite elem_of_union, !elem_of_dom, elem_of_list_to_set, list_elem_of_fmap.
  rewrite register_preorder, register_list_lookup.
  destruct (last_named key (preorder h)) as [c|] eqn:Hl.
  - apply last_named_Some in Hl as [Hin Hname]. split; [|eauto].
    intros _. right. eauto.
  - split; [auto|]. intros [H|(c & -> & Hin)]; [done|].
    destruct (last_named_is_Some (__name__ c) (preorder h) c Hin eq_refl)
      as [c' Hc']. congruence.
Qed.

(** X2.  Registering keeps the registry keyed by class name: when every
    entry sits under the name of its class, so does every entry afterwards.
    An entry of the result is a loaded class of the hierarchy under its own
    name, or an entry that was there; the keys are the old keys and the
    names of the loaded classes, no others. *)
Theorem register_keeps_keyed_by_name (self : gmap string pyclass)
    (h : hierarchy) :
  (keyed_by_name self → keyed_by_name (register self h))
  ∧ (∀ key c, register self h !! key = Some c →
       (c ∈ preorder h ∧ __name__ c = key) ∨ self !! key = Some c)
  ∧ dom (register self h)
    = dom self ∪ list_to_set (__name__ <$> preorder h).
Proof.
  split_and!.
  - intros Hself key c [[_ Hname]|Hold]%register_lookup_cases; [done|].
    by apply Hself.
  - apply register_lookup_cases.
  - apply register_dom.
Qed.

Lemma register_keeps_keyed_by_name_witness :
  keyed_by_name (factory [Loaded (PyClass 2 "Rig" "transform" "grp")
                            [Loaded (PyClass 3 "Arm" "joint" "grp") []]]).
Proof.
  apply (register_keeps_keyed_by_name ∅).
  intros key c H. by rewrite lookup_empty in H.
Defined.

Lemma register_list_idempotent self l :
  register_list (register_list self l) l = register_list self l.
Proof.
  apply map_eq. intros key. rewrite !register_list_lookup.
  by destruct (last_named key l).
Qed.

(** X3.  Registering a hierarchy twice is registering it once: the second
    pass meets the same classes in the same order and writes the same
    entries. *)
Theorem register_idempotent (self : gmap string pyclass) (h : hierarchy) :
  register (register self h) h = register self h.
Proof.
  rewrite !register_preorder. apply register_list_idempotent.
Qed.

(** ** The factory on any node *)

Lemma get_system_run self obj s o r :
  result (resolve obj) s = Return (Some o) →
  nodes s !! o = Some r →
  get_system self obj s =
  (Return (match r_attrs r !! SYSTEM_TYPE_ATTR_NAME with
           | Some tag => Some (wrapper (default System (self !! tag)) o r)
           | None => None
           end), s).
Proof.
  intros Hres Hr. unfold get_system.
  rewrite (run_bind_Return _ _ _ _ _
             (get_system_class_Some self obj s o r Hres Hr)).
  destruct (r_attrs r !! SYSTEM_TYPE_ATTR_NAME) as [tag|]; [|done].
  apply (Node_new_Some _ obj s o r Hres Hr).
Qed.

(** X4.  What [get_system] returns for a reference that resolves to a node
    of the scene is decided by the node's tag alone: nothing without a
    tag; with a tag, a wrapper of the node, bound to the node's UUID, of
    the class registered under the tag and of [System] when none is.  The
    scene is left as it was. *)
Theorem get_system_by_tag (self : gmap string pyclass) (obj : ref)
    (s : Scene) (o : MObject) (r : node_rec) :
  result (resolve obj) s = Return (Some o) →
  nodes s !! o = Some r →
  final (get_system self obj) s = s
  ∧ (r_attrs r !! SYSTEM_TYPE_ATTR_NAME = None →
       result (get_system self obj) s = Return None)
  ∧ (∀ tag cls, r_attrs r !! SYSTEM_TYPE_ATTR_NAME = Some tag →
       self !! tag = Some cls →
       result (get_system self obj) s = Return (Some (wrapper cls o r)))
  ∧ (∀ tag, r_attrs r !! SYSTEM_TYPE_ATTR_NAME = Some tag →
       self !! tag = None →
       result (get_system self obj) s = Return (Some (wrapper System o r))).
Proof.
  intros Hres Hr. pose proof (get_system_run self obj s o r Hres Hr) as Hrun.
  unfold final, result. rewrite Hrun. simpl. split_and!.
  - done.
  - by intros ->.
  - by intros tag cls -> ->.
  - by intros tag -> ->.
Qed.

Lemma get_system_by_tag_witness :
  result (get_system ∅ (RefObj 0)) duck_scene
  = Return (Some (MkNode System "uuid-" 0 (MFnDagNode 0))).
Proof.
  destruct (get_system_by_tag ∅ (RefObj 0) duck_scene 0
              (NodeRec "uuid-" "duck" "transform" true None
                 (<["system_type" := "System"]> ∅) true))
    as (_ & _ & _ & H); [vm_compute; reflexivity..|].
  apply (H "System"); vm_compute; reflexivity.
Defined.

(** X5.  Given a string, neither the constructor nor the factory ever
    raises, whatever the string, the registry and the scene: each returns
    ([None] or a value) and leaves the scene as it was. *)
Theorem string_reference_never_raises (self : gmap string pyclass)
    (cls : pyclass) (value : string) (s : Scene) :
  (∃ n, Node_new cls (RefStr value) s = (Return n, s))
  ∧ (∃ c, get_system_class self (RefStr value) s = (Return c, s))
  ∧ (∃ n, get_system self (RefStr value) s = (Return n, s)).
Proof.
  destruct (find_node value s) as [[o r]|] eqn:Hf.
  - destruct (find_node_Some _ _ _ _ Hf) as (Hr & _).
    assert (result (resolve (RefStr value)) s = Return (Some o)) as Hres
      by (unfold result; by rewrite resolve_str, Hf).
    split_and!; eexists.
    + apply (Node_new_Some cls _ s o r Hres Hr).
    + apply (get_system_class_Some self _ s o r Hres Hr).
    + apply (get_system_run self _ s o r Hres Hr).
  - assert (result (resolve (RefStr value)) s = Return None) as Hres
      by (unfold result; by rewrite resolve_str, Hf).
    split_and!; exists None.
    + by apply Node_new_None.
    + by apply get_system_class_None.
    + unfold get_system.
      by rewrite (run_bind_Return _ _ _ _ _
                    (get_system_class_None self _ s Hres)).
Qed.

(** X6.  The name and the UUID of a node are two spellings of one
    reference: when both designate the same node, constructing from the
    name, from the UUID and from the object itself give the same wrapper,
    whose string is the UUID. *)
Theorem Node_new_same_wrapper (cls : pyclass) (s : Scene) (name : string)
    (o : MObject) (r : node_rec) :
  find_node name s = Some (o, r) →
  find_node (r_uuid r) s = Some (o, r) →
  result (Node_new cls (RefStr name)) s = Return (Some (wrapper cls o r))
  ∧ result (Node_new cls (RefStr (r_uuid r))) s
    = Return (Some (wrapper cls o r))
  ∧ result (Node_new cls (RefObj o)) s = Return (Some (wrapper cls o r))
  ∧ uuid (wrapper cls o r) = r_uuid r.
Proof.
  intros Hname Huuid. destruct (find_node_Some _ _ _ _ Hname) as (Hr & _).
  unfold result. split_and!.
  - rewrite (Node_new_Some cls (RefStr name) s o r); [done| |done].
    unfold result. by rewrite resolve_str, Hname.
  - rewrite (Node_new_Some cls (RefStr (r_uuid r)) s o r); [done| |done].
    unfold result. by rewrite resolve_str, Huuid.
  - by rewrite (Node_new_Some cls (RefObj o) s o r eq_refl Hr).
  - done.
Qed.

Lemma Node_new_same_wrapper_witness :
  result (Node_new NodeClass (RefStr "duck")) duck_scene
  = result (Node_new NodeClass (RefStr "uuid-")) duck_scene.
Proof.
  destruct (Node_new_same_wrapper NodeClass duck_scene "duck" 0
              (NodeRec "uuid-" "duck" "transform" true None
                 (<["system_type" := "System"]> ∅) true))
    as (H1 & H2 & _); [vm_compute; reflexivity..|].
  etrans; [exact H1|symmetry; exact H2].
Defined.

(** ** [Node.create] *)

Lemma Node_create_unknown_parent cls name p s :
  find_node p s = None →
  Node_create cls name (Some p) s =
  (Raise (Exn IndexError "list index out of range"),
   with_call (Call_ls p) s).
Proof.
  intros Hf. unfold Node_create.
  by rewrite !run_bind, cmds_ls_run, (find_node_None_filter p s Hf).
Qed.

Lemma Node_create_Return_parent cls name parent s x s' :
  Node_create cls name parent s = (Return x, s') →
  ∀ p, parent = Some p → is_Some (find_node p s).
Proof.
  intros Hrun p ->. destruct (find_node p s) as [y|] eqn:Hf; [eauto|].
  by rewrite (Node_create_unknown_parent cls name p s Hf) in Hrun.
Qed.

(** X7.  Whenever [Node.create] returns, it returns an instance, never
    [None]: the wrapper, of the class asked for, of one new node of the
    class's node type, added after the nodes that were there, with no
    attribute on it and the selection as it was.  The node not being
    tagged, the factory does not take it for a system. *)
Theorem Node_create_plain (self : gmap string pyclass) (cls : pyclass)
    (name parent : option string) (s s' : Scene) (x : option Node) :
  Node_create cls name parent s = (Return x, s') →
  ∃ n r,
    x = Some n
    ∧ n = wrapper cls (length (nodes s)) r
    ∧ nodes s' = nodes s ++ [r]
    ∧ r_type r = _NODETYPE cls
    ∧ r_valid r = true
    ∧ r_attrs r = ∅
    ∧ selection s' = selection s
    ∧ result (get_system_class self (RefStr (uuid n))) s' = Return None
    ∧ result (get_system self (RefStr (uuid n))) s' = Return None.
Proof.
  intros Hreturn.
  pose proof (Node_create_Return_parent _ _ _ _ _ _ Hreturn) as Hparent.
  destruct (Node_create_run cls name parent s Hparent)
    as (par & parent' & s1 & Hrun & Hn1 & Hsel & _).
  cbv zeta in Hrun. rewrite Hreturn in Hrun.
  destruct (created_fresh (_NODETYPE cls) (create_name cls name) par s)
    as [_ Hfresh].
  assert (r_valid (created (_NODETYPE cls) (create_name cls name) par s)
          = true) as Hvalid by reflexivity.
  assert (r_type (created (_NODETYPE cls) (create_name cls name) par s)
          = _NODETYPE cls) as Htype by reflexivity.
  assert (r_attrs (created (_NODETYPE cls) (create_name cls name) par s)
          = ∅) as Hattrs by reflexivity.
  remember (created (_NODETYPE cls) (create_name cls name) par s) as r0
    eqn:Hr0def.
  injection Hrun as -> <-.
  assert (nodes s' !! length (nodes s) = Some r0) as Hr0
    by (rewrite Hn1; by apply list_lookup_middle).
  assert (result (resolve (RefStr (r_uuid r0))) s'
          = Return (Some (length (nodes s)))) as Hres.
  { unfold result. rewrite resolve_str.
    rewrite (find_node_new _ s s' r0 Hfresh Hn1); [done|].
    apply node_matches_true. auto. }
  eexists _, r0. split; [reflexivity|]. simpl. split_and!; try done.
  - unfold result.
    rewrite (get_system_class_Some self _ s' _ r0 Hres Hr0).
    by rewrite Hattrs, lookup_empty.
  - unfold result. rewrite (get_system_run self _ s' _ r0 Hres Hr0).
    by rewrite Hattrs, lookup_empty.
Qed.

Lemma Node_create_plain_witness :
  ∃ n, result (Node_create NodeClass None (Some "duck")) duck_scene
       = Return (Some n)
       ∧ result (get_system (factory []) (RefStr (uuid n)))
           (final (Node_create NodeClass None (Some "duck")) duck_scene)
         = Return None.
Proof.
  destruct (Node_create_plain (factory []) NodeClass None (Some "duck")
              duck_scene
              (final (Node_create NodeClass None (Some "duck")) duck_scene)
              (Some (MkNode NodeClass "uuid-0" 1 (MFnDagNode 1))))
    as (n & r & Hx & _ & _ & _ & _ & _ & _ & _ & Hget).
  - vm_compute. reflexivity.
  - exists n. split; [|exact Hget]. rewrite <- Hx. vm_compute. reflexivity.
Defined.

(** X8.  With a parent that designates no node, [create] raises
    [IndexError] after the one query to the host: no node is created, for a
    plain node and for a system alike. *)
Theorem create_unknown_parent (cls : pyclass) (name : option string)
    (p : string) (s : Scene) :
  find_node p s = None →
  Node_create cls name (Some p) s =
    (Raise (Exn IndexError "list index out of range"),
     with_call (Call_ls p) s)
  ∧ System_create cls name (Some p) s =
    (Raise (Exn IndexError "list index out of range"),
     with_call (Call_ls p) s)
  ∧ nodes (final (System_create cls name (Some p)) s) = nodes s.
Proof.
  intros Hf.
  pose proof (Node_create_unknown_parent cls name p s Hf) as Hrun.
  assert (System_create cls name (Some p) s =
          (Raise (Exn IndexError "list index out of range"),
           with_call (Call_ls p) s)) as Hsys.
  { unfold System_create. by rewrite (run_bind_Raise _ _ _ _ _ Hrun). }
  split_and!; [done|done|]. unfold final. by rewrite Hsys.
Qed.

Lemma create_unknown_parent_witness :
  result (System_create System (Some "egg") (Some "goose")) duck_scene
  = Raise (Exn IndexError "list index out of range").
Proof.
  destruct (create_unknown_parent System (Some "egg") "goose" duck_scene)
    as (_ & H & _).
  - vm_compute. reflexivity.
  - unfold result. by rewrite H.
Defined.

(** ** [Node.serialize] *)

Lemma Node_serialize_reads n : reads (Node_serialize n).
Proof. unfold Node_serialize. solve_reads. Qed.

Lemma Node_serialize_Return n s data :
  result (Node_serialize n) s = Return data →
  data = [("type", __name__ (__class__ n))].
Proof.
  unfold result, Node_serialize. rewrite run_bind.
  destruct (Node_repr n s) as [[node_repr|e] s1]; [|done].
  by intros [= <-].
Qed.

Lemma register_lookup_only self h c :
  c ∈ preorder h →
  (∀ c', c' ∈ preorder h → __name__ c' = __name__ c → c' = c) →
  register self h !! __name__ c = Some c.
Proof.
  intros Hin Honly. rewrite register_preorder, register_list_lookup.
  destruct (last_named_is_Some (__name__ c) (preorder h) c Hin eq_refl)
    as [c' Hc'].
  rewrite Hc'. apply last_named_Some in Hc' as [Hin' Hname].
  by rewrite (Honly c' Hin' Hname).
Qed.

(** X9.  [serialize] only reads the scene.  It needs a valid node, because
    it logs the node's [repr]: on a node that is not valid it raises the
    error of [fn]; on a node whose name can be read it returns the one
    pair [type -> class name].  That type is a key under which a registry
    filled from a hierarchy holds the node's class, when the class is
    loaded in the hierarchy and the only one of its name there. *)
Theorem serialize_type (self : gmap string pyclass) (h : hierarchy)
    (n : Node) (s : Scene) :
  final (Node_serialize n) s = s
  ∧ (is_valid s (dependnode n) = false →
       result (Node_serialize n) s = Raise (stale_error n))
  ∧ (∀ name, result (Node_get_name n) s = Return name →
       result (Node_serialize n) s
       = Return [("type", __name__ (__class__ n))])
  ∧ (∀ data, result (Node_serialize n) s = Return data →
       __class__ n ∈ preorder h →
       (∀ c, c ∈ preorder h → __name__ c = __name__ (__class__ n) →
          c = __class__ n) →
       ∃ tag, data = [("type", tag)]
              ∧ register self h !! tag = Some (__class__ n)).
Proof.
  split_and!.
  - apply Node_serialize_reads.
  - intros Hv. unfold result, Node_serialize.
    by rewrite (run_bind_Raise _ _ _ _ _ (Node_repr_stale n s Hv)).
  - apply Node_serialize_run.
  - intros data Hdata Hin Honly. exists (__name__ (__class__ n)).
    split; [by apply (Node_serialize_Return n s)|].
    by apply register_lookup_only.
Qed.

Lemma serialize_type_witness :
  result (Node_serialize duck) duck_scene = Return [("type", "System")]
  ∧ result (Node_serialize duck) deleted_scene
    = Raise (Exn RuntimeError "Invalid depend node. System(uuid-) not found")
  ∧ factory [] !! "System" = Some System.
Proof.
  destruct (serialize_type ∅ (Loaded System []) duck duck_scene)
    as (_ & _ & Hvalid & Hkey).
  destruct (serialize_type ∅ (Loaded System []) duck deleted_scene)
    as (_ & Hstale & _).
  split_and!.
  - apply (Hvalid "duck"). vm_compute. reflexivity.
  - apply Hstale. vm_compute. reflexivity.
  - destruct (Hkey [("type", "System")]) as (tag & [= <-] & Hreg).
    + apply (Hvalid "duck"). vm_compute. reflexivity.
    + simpl. set_solver.
    + intros c Hc _. simpl in Hc. by apply list_elem_of_singleton in Hc.
    + exact Hreg.
Defined.

(** ** What reaches the host *)

Lemma logs_ret {A} (a : A) : logs (mret a) [].
Proof. intros s. simpl. by rewrite app_nil_r. Qed.

Lemma logs_raise {A} e : logs (raise (A := A) e) [].
Proof. intros s. simpl. by rewrite app_nil_r. Qed.

Lemma logs_reads {A} (m : M A) : reads m → logs m [].
Proof. intros Hm s. by rewrite Hm, app_nil_r. Qed.

Lemma logs_log_call c : logs (log_call c) [c].
Proof. by intros s. Qed.

Lemma logs_bind {A B} (m : M A) (k : A → M B) cs :
  logs m cs → (∀ a, logs (k a) []) → logs (m ≫= k) cs.
Proof.
  intros Hm Hk s. specialize (Hm s). unfold final in *. rewrite run_bind.
  destruct (m s) as [[a|e] s1]; simpl in *; [|done].
  specialize (Hk a s1). unfold final in Hk. by rewrite Hk, app_nil_r.
Qed.

Lemma logs_modify_graph f :
  (∀ s, calls (f s) = calls s) → logs (modify f) [].
Proof. intros Hf s. simpl. by rewrite Hf, app_nil_r. Qed.

Create HintDb logs discriminated.
#[global] Hint Resolve logs_ret logs_raise logs_log_call : logs.

Ltac logs_step :=
  lazymatch goal with
  | |- logs (mbind _ _) _ => apply logs_bind; [|intros ?]
  | |- logs (modify _) [] => apply logs_modify_graph; by intros ?
  | |- logs get_scene [] => apply logs_reads; by intros ?
  | |- logs (lookup_node _) [] =>
      apply logs_reads; intros s; unfold final, lookup_node;
      by destruct (find_node _ s)
  | |- logs (if ?b then _ else _) _ => destruct b
  | |- logs (match ?x with _ => _ end) _ => destruct x
  end.

Ltac solve_logs := repeat logs_step; eauto with logs.

Lemma logs_require_namespace ns : logs (require_namespace ns) [].
Proof. unfold require_namespace. solve_logs. Qed.

Lemma logs_parse_plug plug : logs (parse_plug plug) [].
Proof. unfold parse_plug. solve_logs. Qed.

Lemma logs_require_attr attr r : logs (require_attr attr r) [].
Proof. unfold require_attr. solve_logs. Qed.

#[global] Hint Resolve logs_require_namespace logs_parse_plug
  logs_require_attr : logs.

Lemma logs_cmds_delete obj : logs (cmds_delete obj) [Call_delete obj].
Proof. unfold cmds_delete. solve_logs. Qed.

Lemma logs_cmds_select obj : logs (cmds_select obj) [Call_select obj].
Proof. unfold cmds_select. solve_logs. Qed.

Lemma logs_cmds_file filename es settings :
  logs (cmds_file filename es settings) [Call_file filename es settings].
Proof. unfold cmds_file. solve_logs. Qed.

Lemma logs_cmds_rename obj value :
  logs (cmds_rename obj value) [Call_rename obj value].
Proof. unfold cmds_rename. solve_logs. Qed.

Lemma logs_cmds_namespace_mv src dst :
  logs (cmds_namespace_mv src dst) [Call_namespace_mv src dst].
Proof. unfold cmds_namespace_mv. solve_logs. Qed.

Lemma logs_cmds_namespace_ren old new parent :
  logs (cmds_namespace_ren old new parent)
       [Call_namespace_ren old new parent].
Proof. unfold cmds_namespace_ren. solve_logs. Qed.

Lemma logs_cmds_namespace_rm ns mnr :
  logs (cmds_namespace_rm ns mnr) [Call_namespace_rm ns mnr].
Proof. unfold cmds_namespace_rm. solve_logs. Qed.

Lemma logs_cmds_namespaceInfo_ls ns :
  logs (cmds_namespaceInfo_ls ns) [Call_namespaceInfo_ls ns].
Proof. unfold cmds_namespaceInfo_ls. solve_logs. Qed.

Lemma logs_cmds_setAttr plug value :
  logs (cmds_setAttr plug value) [Call_setAttr plug value].
Proof. unfold cmds_setAttr. solve_logs. Qed.

Lemma logs_cmds_getAttr plug : logs (cmds_getAttr plug) [Call_getAttr plug].
Proof. unfold cmds_getAttr. solve_logs. Qed.

(** ** What leaves the graph alone *)

Lemma frames_ret {A} (a : A) : frames (mret a).
Proof. by intros s. Qed.

Lemma frames_raise {A} e : frames (raise (A := A) e).
Proof. by intros s. Qed.

Lemma frames_reads {A} (m : M A) : reads m → frames m.
Proof. intros Hm s. by rewrite Hm. Qed.

Lemma frames_bind {A B} (m : M A) (k : A → M B) :
  frames m → (∀ a, frames (k a)) → frames (m ≫= k).
Proof.
  intros Hm Hk s. specialize (Hm s). unfold final in *. rewrite run_bind.
  destruct (m s) as [[a|e] s1]; simpl in *; [|done].
  specialize (Hk a s1). unfold final in Hk.
  destruct Hm as [<- <-]. exact Hk.
Qed.

Lemma frames_modify f :
  (∀ s, nodes (f s) = nodes s ∧ namespaces (f s) = namespaces s) →
  frames (modify f).
Proof. intros Hf s. apply Hf. Qed.

Lemma frames_try_finally {A} (body : M A) fin :
  frames body → frames fin → frames (try_finally body fin).
Proof.
  intros Hb Hf s. specialize (Hb s). unfold final, try_finally in *.
  destruct (body s) as [r s1]. specialize (Hf s1). unfold final in Hf.
  simpl in *. destruct Hb as [<- <-].
  by destruct (fin s1) as [[[]|e] s2].
Qed.

Ltac frames_step :=
  lazymatch goal with
  | |- frames (mbind _ _) => apply frames_bind; [|intros ?]
  | |- frames (mret _) => apply frames_ret
  | |- frames (raise _) => apply frames_raise
  | |- frames (try_finally _ _) => apply frames_try_finally
  | |- frames (modify _) => apply frames_modify; by intros ?
  | |- frames (log_call _) => apply frames_modify; by intros ?
  | |- frames get_scene => apply frames_reads; by intros ?
  | |- frames (lookup_node _) =>
      apply frames_reads; intros s; unfold final, lookup_node;
      by destruct (find_node _ s)
  | |- frames (Node_get_name _) => apply frames_reads, Node_get_name_reads
  | |- frames (Node_repr _) => apply frames_reads, Node_repr_reads
  | |- frames (if ?b then _ else _) => destruct b
  | |- frames (match ?x with _ => _ end) => destruct x
  end.

Ltac solve_frames := repeat frames_step.

Lemma export_frames n filename kwargs : frames (Node_export n filename kwargs).
Proof.
  unfold Node_export, KeepSel, get_selection, set_selection, cmds_select,
    cmds_file.
  solve_frames.
Qed.

(** ** [Node.export], further *)

(** X10.  [export] never changes the graph: whatever it is given and
    whether it returns or raises, the nodes (names, attributes, validity),
    the namespaces and the selection of the scene are afterwards what they
    were before. *)
Theorem export_leaves_graph (n : Node) (filename : string)
    (kwargs : gmap string pyval) (s : Scene) :
  nodes (final (Node_export n filename kwargs) s) = nodes s
  ∧ namespaces (final (Node_export n filename kwargs) s) = namespaces s
  ∧ selection (final (Node_export n filename kwargs) s) = selection s.
Proof.
  destruct (export_frames n filename kwargs s) as [Hn Hns].
  split_and!; [done|done|apply export_selection].
Qed.

Lemma cmds_select_run obj s p :
  find_node obj s = Some p →
  cmds_select obj s =
  (Return (), with_selection (λ _, [p.1]) (with_call (Call_select obj) s)).
Proof.
  intros Hf. unfold cmds_select, log_call, modify, lookup_node.
  rewrite !run_bind. simpl.
  change (find_node obj (with_call (Call_select obj) s))
    with (find_node obj s). by rewrite Hf.
Qed.

Lemma Node_get_name_at n s s' name :
  nodes s' = nodes s → result (Node_get_name n) s = Return name →
  Node_get_name n s' = (Return name, s').
Proof.
  intros Hn Hname.
  rewrite (reads_result _ s' (Node_get_name_reads n)).
  by rewrite (Node_get_name_nodes n s' s Hn), Hname.
Qed.

(** X11.  A keyword argument called ['es'] collides with the [es=True]
    that [export] passes itself: on a node whose name the host can find,
    the export raises [TypeError] after selecting the node and before any
    file is written, and the selection is put back. *)
Theorem export_es_collides (n : Node) (filename name : string)
    (kwargs : gmap string pyval) (s : Scene) :
  is_Some (kwargs !! "es") →
  result (Node_get_name n) s = Return name →
  is_Some (find_node name s) →
  result (Node_export n filename kwargs) s
  = Raise (Exn TypeError
             "file() got multiple values for keyword argument 'es'")
  ∧ calls (final (Node_export n filename kwargs) s)
    = calls s ++ [Call_ls_selection; Call_select name;
                  Call_select_list (selection s)]
  ∧ selection (final (Node_export n filename kwargs) s) = selection s.
Proof.
  intros [v Hes] Hname [p Hf].
  assert (Node_export n filename kwargs s =
          (Raise (Exn TypeError
                    "file() got multiple values for keyword argument 'es'"),
           with_selection (λ _, selection s)
             (with_call (Call_select_list (selection s))
                (with_selection (λ _, [p.1])
                   (with_call (Call_select name)
                      (with_call Call_ls_selection s)))))) as Hrun.
  { unfold Node_export. rewrite KeepSel_run.
    rewrite (run_bind_Return _ _ _ _ _
               (Node_get_name_at n s (with_call Call_ls_selection s) name
                  eq_refl Hname)).
    rewrite (run_bind_Return _ _ _ _ _
               (cmds_select_run name (with_call Call_ls_selection s) p Hf)).
    rewrite bool_decide_eq_true_2; [done|].
    exists v. unfold export_settings. by apply lookup_union_Some_l. }
  unfold result, final. rewrite Hrun. simpl.
  split_and!; [done| |done]. by rewrite <- !app_assoc.
Qed.

Lemma export_es_collides_witness :
  result (Node_export duck "out.ma" (<["es" := PBool false]> ∅)) duck_scene
  = Raise (Exn TypeError
             "file() got multiple values for keyword argument 'es'").
Proof.
  apply (export_es_collides duck "out.ma" "duck" _ duck_scene).
  - vm_compute. eauto.
  - vm_compute. reflexivity.
  - vm_compute. eauto.
Defined.

(** ** [Node.rename], further *)

Lemma raise_after_raises {A B C} (m : M A) e (k : B → M C) s :
  ∃ e', result (m ≫= λ _, raise e ≫= k) s = Raise e'.
Proof.
  unfold result. rewrite run_bind.
  destruct (m s) as [[a|e1] s1]; simpl; eauto.
Qed.

Lemma bind_raises {A B} (m : M A) (k : A → M B) s :
  (∀ a s1, ∃ e, result (k a) s1 = Raise e) →
  ∃ e, result (m ≫= k) s = Raise e.
Proof.
  intros Hk. unfold result. rewrite run_bind.
  destruct (m s) as [[a|e1] s1]; simpl; [apply Hk|eauto].
Qed.

Lemma Node_namespace_of_name n s name :
  result (Node_get_name n) s = Return name →
  ∀ s', nodes s' = nodes s →
    Node_namespace n s' = (Return (namespace_of name), s').
Proof.
  intros Hname s' Hn.
  destruct (Node_get_name_Return n s name Hname) as (Hv & r & Hr & <-).
  unfold Node_namespace.
  rewrite (run_bind_Return _ _ s' (_fn n) s').
  - unfold fn_namespace, om_read. by rewrite Hn, Hr.
  - apply Node_fn_valid. unfold is_valid in *. by rewrite Hn.
Qed.

(** X12.  Renaming to the empty string never succeeds.  On a node whose
    name has no namespace it raises [IndexError] and the scene is
    untouched; on a node in a namespace the setter of [namespace] runs
    first, so the host is asked to remove that namespace, merging it with
    the root, before anything is raised. *)
Theorem rename_to_empty (n : Node) (s : Scene) :
  (∃ e, result (Node_rename n "") s = Raise e)
  ∧ (∀ name, result (Node_get_name n) s = Return name →
       str_contains ":" name = false →
       Node_rename n "" s =
       (Raise (Exn IndexError "string index out of range"), s))
  ∧ (∀ name, result (Node_get_name n) s = Return name →
       namespace_of name ≠ "" →
       calls (final (Node_rename n "") s)
       = calls s ++ [Call_namespace_rm (namespace_of name) true]).
Proof.
  split_and!.
  - unfold Node_rename. apply bind_raises. intros name s1.
    apply raise_after_raises.
  - intros name Hname Hroot. unfold Node_rename.
    rewrite (run_bind_Return _ _ _ _ _
               (Node_get_name_at n s s name eq_refl Hname)).
    by rewrite Hroot.
  - intros name Hname Hns. unfold final, Node_rename.
    rewrite (run_bind_Return _ _ _ _ _
               (Node_get_name_at n s s name eq_refl Hname)).
    assert (str_contains ":" name = true) as ->.
    { destruct (str_contains ":" name) eqn:Hc; [done|].
      by rewrite (namespace_of_root name Hc) in Hns. }
    simpl rsplit1. unfold Node_set_namespace.
    rewrite run_bind.
    rewrite (run_bind_Return _ _ _ _ _
               (Node_namespace_of_name n s name Hname s eq_refl)).
    rewrite bool_decide_eq_true_2 by done.
    rewrite bool_decide_eq_false_2 by (by intros H; apply H).
    pose proof (logs_cmds_namespace_rm (namespace_of name) true s) as Hlog.
    unfold final in Hlog.
    destruct (cmds_namespace_rm (namespace_of name) true s) as [[[]|e] s1];
      simpl in *; exact Hlog.
Qed.

Lemma rename_to_empty_witness :
  Node_rename duck "" duck_scene =
  (Raise (Exn IndexError "string index out of range"), duck_scene).
Proof.
  destruct (rename_to_empty duck duck_scene) as (_ & H & _).
  apply (H "duck"); vm_compute; reflexivity.
Defined.

Lemma str_last_is_Some value : value ≠ "" → is_Some (str_last value).
Proof.
  induction value as [|a t IH]; [done|]. intros _. simpl.
  destruct t as [|b t']; [eauto|]. by apply IH.
Qed.

(** X13.  On a node whose name has no namespace, [rename] with a value that
    is not empty makes one call to the host, [cmds.rename], with the
    node's current name and the value, to which the default name of the
    class is appended when the value ends with [':']; whether the host
    accepts the name or not. *)
Theorem rename_asks_host (n : Node) (value name : string) (s : Scene) :
  result (Node_get_name n) s = Return name →
  str_contains ":" name = false →
  value ≠ "" →
  calls (final (Node_rename n value) s)
  = calls s ++ [Call_rename name
                  (if endswith ":" value
                   then value +:+ DEFAULT_NAME (__class__ n) else value)].
Proof.
  intros Hname Hroot Hvalue. unfold final, Node_rename.
  rewrite (run_bind_Return _ _ _ _ _
             (Node_get_name_at n s s name eq_refl Hname)).
  rewrite Hroot, run_bind, run_ret.
  destruct (str_last_is_Some value Hvalue) as [c Hc].
  unfold endswith. rewrite Hc, run_bind, run_ret.
  rewrite (run_bind_Return _ _ _ _ _
             (Node_get_name_at n s s name eq_refl Hname)).
  assert (bool_decide (Some c = Some ":"%char) = bool_decide (c = ":"%char))
    as -> by (apply bool_decide_ext; naive_solver).
  apply (logs_bind _ _ _ (logs_cmds_rename _ _) (λ _, logs_ret ())).
Qed.

Lemma rename_asks_host_witness :
  calls (final (Node_rename duck "rig:") duck_scene)
  = calls duck_scene ++ [Call_rename "duck" "rig:grp"].
Proof.
  apply (rename_asks_host duck "rig:" "duck" duck_scene).
  - vm_compute. reflexivity.
  - reflexivity.
  - discriminate.
Defined.

(** ** The [namespace] setter, further *)

Lemma cmds_namespace_ex_run ns s :
  cmds_namespace_ex ns s =
  (Return (bool_decide (ns ∈ namespaces s)),
   with_call (Call_namespace_ex ns) s).
Proof. reflexivity. Qed.

Lemma cmds_namespace_add_run ns s :
  ns ∉ namespaces s →
  cmds_namespace_add ns s =
  (Return (),
   with_namespaces (λ l, l ++ [ns]) (with_call (Call_namespace_add ns) s)).
Proof.
  intros Hns. unfold cmds_namespace_add, log_call, modify, get_scene.
  repeat (rewrite run_bind; simpl). by rewrite bool_decide_eq_false_2.
Qed.

Lemma logs_at {A} (m : M A) cs s : logs m cs → calls (m s).2 = calls s ++ cs.
Proof. intros H. apply H. Qed.

(** X14.  On a node in a namespace [ns], assigning to [namespace] reaches
    the host with these calls and no others, whether the last one succeeds
    or not: for the empty value, the removal of [ns] merged with the root;
    for a namespace that exists, the test and the move of [ns] into it;
    for a nested one that does not exist, the test, the test of its
    parent, the creation of the parent only when it is missing, and the
    renaming of [ns] under the parent; otherwise the test and the renaming
    of [ns]. *)
Theorem set_namespace_asks_host (n : Node) (value name : string) (s : Scene) :
  result (Node_get_name n) s = Return name →
  namespace_of name ≠ "" →
  calls (final (Node_set_namespace n value) s)
  = calls s ++
    (if bool_decide (value = "") then
       [Call_namespace_rm (namespace_of name) true]
     else if bool_decide (value ∈ namespaces s) then
       [Call_namespace_ex value;
        Call_namespace_mv (namespace_of name) value]
     else
       match rsplit1 ":" value with
       | Some (par, v) =>
           [Call_namespace_ex value; Call_namespace_ex par]
           ++ (if bool_decide (par ∈ namespaces s) then []
               else [Call_namespace_add par])
           ++ [Call_namespace_ren (namespace_of name) v (Some par)]
       | None =>
           [Call_namespace_ex value;
            Call_namespace_ren (namespace_of name) value None]
       end).
Proof.
  intros Hname Hns.
  pose proof (Node_namespace_of_name n s name Hname) as Hread.
  unfold final, Node_set_namespace.
  rewrite (run_bind_Return _ _ _ _ _ (Hread s eq_refl)).
  rewrite bool_decide_eq_true_2 by done.
  destruct (decide (value = "")) as [->|Hvalue].
  - rewrite bool_decide_eq_false_2 by (by intros H; apply H).
    rewrite bool_decide_eq_true_2 by done.
    apply logs_at, logs_cmds_namespace_rm.
  - rewrite bool_decide_eq_true_2 by done.
    rewrite (bool_decide_eq_false_2 (value = "")) by done.
    rewrite run_bind, cmds_namespace_ex_run.
    case_bool_decide as Hex.
    + rewrite (logs_at _ _ _ (logs_cmds_namespace_mv _ _)). simpl.
      by rewrite <- app_assoc.
    + destruct (rsplit1 ":" value) as [[par v]|].
      * rewrite run_bind, cmds_namespace_ex_run. simpl namespaces.
        case_bool_decide as Hpar; simpl negb; cbv iota.
        -- rewrite run_bind, run_ret. cbv beta iota.
           rewrite run_bind, Hread by reflexivity.
           rewrite (logs_at _ _ _ (logs_cmds_namespace_ren _ _ _)). simpl.
           by rewrite <- !app_assoc.
        -- rewrite run_bind, cmds_namespace_add_run by done.
           cbv beta iota.
           rewrite run_bind, Hread by reflexivity.
           rewrite (logs_at _ _ _ (logs_cmds_namespace_ren _ _ _)). simpl.
           by rewrite <- !app_assoc.
      * rewrite run_bind, Hread by reflexivity.
        rewrite (logs_at _ _ _ (logs_cmds_namespace_ren _ _ _)). simpl.
        by rewrite <- !app_assoc.
Qed.

Lemma set_namespace_asks_host_witness :
  calls (final (Node_set_namespace duck "rig:left") ns_scene)
  = calls ns_scene ++ [Call_namespace_ex "rig:left"; Call_namespace_ex "rig";
                       Call_namespace_add "rig";
                       Call_namespace_ren "ns" "left" (Some "rig")].
Proof.
  rewrite (set_namespace_asks_host duck "rig:left" "ns:duck" ns_scene).
  - vm_compute. reflexivity.
  - vm_compute. reflexivity.
  - vm_compute. discriminate.
Defined.

(** ** [Node.delete], further *)

Lemma Node_repr_at n s s' name :
  nodes s' = nodes s → result (Node_get_name n) s = Return name →
  Node_repr n s' =
  (Return (__name__ (__class__ n) +:+ "('" +:+ name +:+ "')"), s').
Proof.
  intros Hn Hname. unfold Node_repr.
  by rewrite (run_bind_Return _ _ _ _ _ (Node_get_name_at n s s' name Hn Hname)).
Qed.

Lemma cmds_delete_namespaces obj s :
  namespaces (final (cmds_delete obj) s) = namespaces s.
Proof.
  unfold final, cmds_delete, log_call, modify, lookup_node, get_scene.
  repeat (rewrite run_bind; simpl).
  change (find_node obj (with_call (Call_delete obj) s))
    with (find_node obj s).
  by destruct (find_node obj s).
Qed.

Lemma namespace_contents_frame ns s s' :
  nodes s' = nodes s → namespaces s' = namespaces s →
  namespace_contents ns s' = namespace_contents ns s.
Proof. unfold namespace_contents. by intros -> ->. Qed.

Lemma cmds_namespaceInfo_ls_run ns s :
  ns ∈ namespaces s →
  cmds_namespaceInfo_ls ns s =
  (Return (namespace_contents ns s), with_call (Call_namespaceInfo_ls ns) s).
Proof.
  intros Hns. unfold cmds_namespaceInfo_ls, require_namespace, log_call,
    modify, get_scene.
  repeat (rewrite run_bind; simpl). by rewrite bool_decide_eq_true_2.
Qed.

Lemma cmds_namespace_rm_empty_run ns s :
  ns ∈ namespaces s → namespace_contents ns s = [] →
  cmds_namespace_rm ns false s =
  (Return (),
   with_namespaces (filter (λ x, x ≠ ns))
     (with_call (Call_namespace_rm ns false) s)).
Proof.
  intros Hns Hempty. unfold cmds_namespace_rm, require_namespace, log_call,
    modify, get_scene.
  assert (namespace_contents ns (with_call (Call_namespace_rm ns false) s)
          = []) as Hempty' by exact Hempty.
  repeat (rewrite run_bind; cbn [fst snd]).
  cbn [namespaces with_call]. rewrite bool_decide_eq_true_2 by done.
  unfold mret, M_ret. cbn beta iota. repeat (rewrite run_bind; cbn beta iota).
  by rewrite Hempty'.
Qed.

(** X15.  Deleting a node whose name has no namespace makes one call to
    the host, [cmds.delete] with the node's name: no namespace is looked
    at, none is removed. *)
Theorem delete_without_namespace (n : Node) (name : string) (s : Scene) :
  result (Node_get_name n) s = Return name →
  str_contains ":" name = false →
  calls (final (Node_delete n) s) = calls s ++ [Call_delete name]
  ∧ namespaces (final (Node_delete n) s) = namespaces s.
Proof.
  intros Hname Hroot. unfold final, Node_delete.
  rewrite (run_bind_Return _ _ _ _ _
             (Node_namespace_of_name n s name Hname s eq_refl)).
  rewrite (run_bind_Return _ _ _ _ _ (Node_repr_at n s s name eq_refl Hname)).
  rewrite (run_bind_Return _ _ _ _ _
             (Node_get_name_at n s s name eq_refl Hname)).
  rewrite (namespace_of_root name Hroot).
  rewrite bool_decide_eq_false_2 by (by intros H; apply H).
  pose proof (logs_cmds_delete name s) as Hlog.
  pose proof (cmds_delete_namespaces name s) as Hns.
  unfold final in *. rewrite run_bind.
  by destruct (cmds_delete name s) as [[[]|e] s1].
Qed.

Lemma delete_without_namespace_witness :
  calls (final (Node_delete duck) duck_scene)
  = calls duck_scene ++ [Call_delete "duck"].
Proof.
  apply (delete_without_namespace duck "duck" duck_scene).
  - vm_compute. reflexivity.
  - reflexivity.
Defined.

(** X16.  Deleting a node that lives in an existing namespace [ns], when
    the host finds the node by its name: the node is deleted, the contents
    of [ns] are listed, and [ns] is removed exactly when nothing is left in
    it; a namespace that still holds something is kept.  The call
    returns. *)
Theorem delete_cleans_namespace (n : Node) (name : string) (s : Scene) :
  result (Node_get_name n) s = Return name →
  is_Some (find_node name s) →
  namespace_of name ≠ "" →
  namespace_of name ∈ namespaces s →
  result (Node_delete n) s = Return ()
  ∧ namespaces (final (Node_delete n) s)
    = match namespace_contents (namespace_of name)
              (final (cmds_delete name) s) with
      | [] => filter (λ x, x ≠ namespace_of name) (namespaces s)
      | _ :: _ => namespaces s
      end
  ∧ calls (final (Node_delete n) s)
    = calls s ++ [Call_delete name; Call_namespaceInfo_ls (namespace_of name)]
      ++ match namespace_contents (namespace_of name)
                 (final (cmds_delete name) s) with
         | [] => [Call_namespace_rm (namespace_of name) false]
         | _ :: _ => []
         end.
Proof.
  intros Hname [[o r] Hf] Hns Hin.
  destruct (cmds_delete_run name o r s Hf) as (s1 & Hdel & _).
  pose proof (cmds_delete_namespaces name s) as Hns1.
  pose proof (logs_cmds_delete name s) as Hlog1.
  unfold final in Hns1, Hlog1. rewrite Hdel in Hns1, Hlog1. simpl in *.
  assert (Node_delete n s =
          match namespace_contents (namespace_of name) s1 with
          | [] =>
              (Return (),
               with_namespaces (filter (λ x, x ≠ namespace_of name))
                 (with_call (Call_namespace_rm (namespace_of name) false)
                    (with_call (Call_namespaceInfo_ls (namespace_of name))
                       s1)))
          | _ :: _ =>
              (Return (),
               with_call (Call_namespaceInfo_ls (namespace_of name)) s1)
          end) as Hrun.
  { unfold Node_delete.
    rewrite (run_bind_Return _ _ _ _ _
               (Node_namespace_of_name n s name Hname s eq_refl)).
    rewrite (run_bind_Return _ _ _ _ _
               (Node_repr_at n s s name eq_refl Hname)).
    rewrite (run_bind_Return _ _ _ _ _
               (Node_get_name_at n s s name eq_refl Hname)).
    rewrite (run_bind_Return _ _ _ _ _ Hdel).
    rewrite bool_decide_eq_true_2 by done.
    rewrite run_bind, cmds_namespaceInfo_ls_run by by rewrite Hns1.
    destruct (namespace_contents (namespace_of name) s1) as [|x l] eqn:Hc;
      [|done].
    apply cmds_namespace_rm_empty_run; [simpl; by rewrite Hns1|].
    by rewrite <- Hc. }
  unfold result, final. rewrite Hrun, Hdel. simpl.
  destruct (namespace_contents (namespace_of name) s1); simpl;
    rewrite ?Hns1, ?Hlog1, <- ?app_assoc; done.
Qed.

Lemma delete_cleans_namespace_witness :
  result (Node_delete duck) ns_scene = Return ()
  ∧ namespaces ns_scene = ["ns"]
  ∧ namespaces (final (Node_delete duck) ns_scene) = [].
Proof.
  destruct (delete_cleans_namespace duck "ns:duck" ns_scene)
    as (Hret & Hns & _).
  - vm_compute. reflexivity.
  - vm_compute. eauto.
  - vm_compute. discriminate.
  - vm_compute. set_solver.
  - split_and!; [exact Hret|vm_compute; reflexivity|].
    rewrite Hns. vm_compute. reflexivity.
Defined.

(** ** [add_system_attr] and the [type] of a system, further *)

Lemma add_system_attr_calls obj value s o r :
  find_node obj s = Some (o, r) →
  calls (final (add_system_attr obj value) s)
  = calls s ++ [Call_attributeQuery_ex SYSTEM_TYPE_ATTR_NAME obj]
    ++ (if bool_decide (is_Some (r_attrs r !! SYSTEM_TYPE_ATTR_NAME)) then []
        else [Call_addAttr obj SYSTEM_TYPE_ATTR_NAME "string"])
    ++ [Call_setAttr (obj +:+ "." +:+ SYSTEM_TYPE_ATTR_NAME) value].
Proof.
  intros Hf. unfold final, add_system_attr.
  rewrite (run_bind_Return _ _ _ _ _
             (cmds_attributeQuery_ex_run SYSTEM_TYPE_ATTR_NAME obj s o r Hf)).
  destruct (r_attrs r !! SYSTEM_TYPE_ATTR_NAME) as [v|] eqn:Hattr.
  - rewrite bool_decide_eq_true_2 by eauto. simpl.
    rewrite run_bind, run_ret.
    rewrite (cmds_setAttr_run _ _ _ _ o r); [|done| |by eauto].
    + simpl. by rewrite <- app_assoc.
    + rewrite <- Hf. by apply find_node_nodes.
  - rewrite bool_decide_eq_false_2 by (by intros [??]). simpl.
    erewrite run_bind_Return; last first.
    { apply (cmds_addAttr_run _ _ _ _ o r); [|done].
      rewrite <- Hf. by apply find_node_nodes. }
    rewrite (cmds_setAttr_run _ _ _ _ o
               (set_attr SYSTEM_TYPE_ATTR_NAME "" r)); [|done| |].
    + simpl. by rewrite <- !app_assoc.
    + apply find_node_set_attr. rewrite <- Hf. by apply find_node_nodes.
    + simpl. rewrite lookup_insert_eq. eauto.
Qed.

Lemma find_node_insert_attr key attr value s s' o r :
  find_node key s = Some (o, r) →
  nodes s' = <[o := set_attr attr value r]> (nodes s) →
  find_node key s' = Some (o, set_attr attr value r).
Proof.
  intros Hf Hn. pose proof (find_node_Some _ _ _ _ Hf) as (Hr & _).
  rewrite <- (find_node_set_attr key attr value s o r Hf).
  apply find_node_nodes. rewrite Hn. simpl. symmetry. by apply alter_insert.
Qed.

(** X17.  [add_system_attr] on a node the host finds: the call returns and
    the node carries the value in its 'system_type' attribute, every other
    node being as it was; the host is asked whether the attribute exists,
    asked to add it only when it does not, and asked to set it.  Doing it
    again changes no node. *)
Theorem add_system_attr_ensures (obj value : string) (s : Scene)
    (o : MObject) (r : node_rec) :
  find_node obj s = Some (o, r) →
  result (add_system_attr obj value) s = Return ()
  ∧ nodes (final (add_system_attr obj value) s)
    = <[o := set_attr SYSTEM_TYPE_ATTR_NAME value r]> (nodes s)
  ∧ calls (final (add_system_attr obj value) s)
    = calls s ++ [Call_attributeQuery_ex SYSTEM_TYPE_ATTR_NAME obj]
      ++ (if bool_decide (is_Some (r_attrs r !! SYSTEM_TYPE_ATTR_NAME))
          then [] else [Call_addAttr obj SYSTEM_TYPE_ATTR_NAME "string"])
      ++ [Call_setAttr (obj +:+ "." +:+ SYSTEM_TYPE_ATTR_NAME) value]
  ∧ nodes (final (add_system_attr obj value)
             (final (add_system_attr obj value) s))
    = nodes (final (add_system_attr obj value) s).
Proof.
  intros Hf.
  destruct (add_system_attr_run obj value s o r Hf)
    as (s' & Hrun & Hnodes & _).
  pose proof (add_system_attr_calls obj value s o r Hf) as Hcalls.
  unfold result, final in *. rewrite Hrun in *. simpl in *.
  split_and!; [done..|].
  pose proof (find_node_insert_attr obj _ value s s' o r Hf Hnodes) as Hf'.
  destruct (add_system_attr_run obj value s' o _ Hf')
    as (s'' & Hrun' & Hnodes' & _).
  rewrite Hrun'. simpl. rewrite Hnodes', Hnodes.
  by rewrite list_insert_insert_eq, set_attr_twice.
Qed.

Lemma add_system_attr_ensures_witness :
  calls (final (add_system_attr "duck" "Rig") duck_scene)
  = calls duck_scene
    ++ [Call_attributeQuery_ex "system_type" "duck";
        Call_setAttr "duck.system_type" "Rig"].
Proof.
  destruct (add_system_attr_ensures "duck" "Rig" duck_scene 0
              {| r_uuid := "uuid-"; r_name := "duck"; r_type := "transform";
                 r_dag := true; r_parent := None;
                 r_attrs := {[ "system_type" := "System" ]};
                 r_valid := true |})
    as (_ & _ & Hcalls & _).
  - vm_compute. reflexivity.
  - rewrite Hcalls. vm_compute. reflexivity.
Defined.

Lemma is_valid_lookup s o r :
  nodes s !! o = Some r → r_valid r = true → is_valid s o = true.
Proof. unfold is_valid. by intros ->. Qed.

Lemma get_system_class_tagged self s o r value :
  nodes s !! o = Some (set_attr SYSTEM_TYPE_ATTR_NAME value r) →
  result (get_system_class self (RefObj o)) s
  = Return (Some (default System (self !! value))).
Proof.
  intros Hr. unfold result.
  rewrite (get_system_class_Some self (RefObj o) s o _ eq_refl Hr).
  simpl. by rewrite lookup_insert_eq.
Qed.

(** X18.  Assigning to [type] on a live system that the host finds by its
    name: the assignment returns, the getter then returns the value
    assigned, and from then on the factory resolves the node to the class
    registered under that value ([System] when none is), whatever the tag
    was before.  The other nodes are as they were. *)
Theorem set_type_retags (n : Node) (value : string) (s : Scene)
    (r : node_rec) :
  nodes s !! dependnode n = Some r →
  r_valid r = true →
  fn_object (_fn n) = dependnode n →
  find_node (r_name r) s = Some (dependnode n, r) →
  is_Some (r_attrs r !! SYSTEM_TYPE_ATTR_NAME) →
  result (System_set_type n value) s = Return ()
  ∧ nodes (final (System_set_type n value) s)
    = <[dependnode n := set_attr SYSTEM_TYPE_ATTR_NAME value r]> (nodes s)
  ∧ result (System_type n) (final (System_set_type n value) s) = Return value
  ∧ ∀ self,
      result (get_system_class self (RefObj (dependnode n)))
        (final (System_set_type n value) s)
      = Return (Some (default System (self !! value))).
Proof.
  intros Hr Hv Hfn Hf Hattr.
  pose proof (is_valid_lookup s _ r Hr Hv) as Hvalid.
  assert (nodes s !! fn_object (_fn n) = Some r) as Hr' by by rewrite Hfn.
  assert (System_set_type n value s =
          (Return (),
           with_nodes (alter (set_attr SYSTEM_TYPE_ATTR_NAME value)
                         (dependnode n))
             (with_call (Call_setAttr
                           (r_name r +:+ "." +:+ SYSTEM_TYPE_ATTR_NAME) value)
                s))) as Hrun.
  { unfold System_set_type.
    rewrite (run_bind_Return _ _ _ _ _ (Node_get_name_run n s r Hvalid Hr')).
    by apply (cmds_setAttr_run _ _ _ _ (dependnode n) r). }
  unfold result, final. rewrite Hrun. cbn [fst snd].
  set (s' := with_nodes _ _).
  assert (nodes s' = <[dependnode n :=
                         set_attr SYSTEM_TYPE_ATTR_NAME value r]> (nodes s))
    as Hnodes by by apply alter_insert.
  assert (nodes s' !! dependnode n
          = Some (set_attr SYSTEM_TYPE_ATTR_NAME value r)) as Hr2.
  { rewrite Hnodes. apply list_lookup_insert_eq. by eapply lookup_lt_Some. }
  split_and!; [done|done| |].
  - apply (System_type_run n s' (set_attr SYSTEM_TYPE_ATTR_NAME value r)).
    + by apply (is_valid_lookup s' _ _ Hr2).
    + by rewrite Hfn.
    + rewrite Hfn.
      by apply (find_node_insert_attr (r_name r) _ value s s' _ r).
    + simpl. by rewrite lookup_insert_eq.
  - intros self. exact (get_system_class_tagged self s' _ r value Hr2).
Qed.

Lemma set_type_retags_witness :
  result (System_type duck) (final (System_set_type duck "Rig") duck_scene)
  = Return "Rig"
  ∧ result (get_system_class
              (factory [Loaded (PyClass 2 "Rig" "transform" "grp") []])
              (RefObj 0))
      (final (System_set_type duck "Rig") duck_scene)
    = Return (Some (PyClass 2 "Rig" "transform" "grp")).
Proof.
  destruct (set_type_retags duck "Rig" duck_scene
              {| r_uuid := "uuid-"; r_name := "duck"; r_type := "transform";
                 r_dag := true; r_parent := None;
                 r_attrs := {[ "system_type" := "System" ]};
                 r_valid := true |})
    as (_ & _ & Hget & Hcls).
  - vm_compute. reflexivity.
  - reflexivity.
  - reflexivity.
  - vm_compute. reflexivity.
  - vm_compute. eauto.
  - split; [exact Hget|]. rewrite Hcls. vm_compute. reflexivity.
Defined.

(** X19.  [create_attributes] promotes a live node the host finds by its
    name, tagged or not, to a system of the wrapper's class: the call
    returns, the node carries the class name in 'system_type', the other
    nodes are as they were, and the factory then resolves the node to the
    class registered under that name; to the wrapper's class itself when
    that is the class registered under its name. *)
Theorem create_attributes_promotes (n : Node) (s : Scene) (r : node_rec) :
  nodes s !! dependnode n = Some r →
  r_valid r = true →
  fn_object (_fn n) = dependnode n →
  find_node (r_name r) s = Some (dependnode n, r) →
  result (System_create_attributes n) s = Return ()
  ∧ nodes (final (System_create_attributes n) s)
    = <[dependnode n :=
          set_attr SYSTEM_TYPE_ATTR_NAME (__name__ (__class__ n)) r]> (nodes s)
  ∧ ∀ self,
      result (get_system_class self (RefObj (dependnode n)))
        (final (System_create_attributes n) s)
      = Return (Some (default System (self !! __name__ (__class__ n))))
      ∧ (self !! __name__ (__class__ n) = Some (__class__ n) →
         result (get_system_class self (RefObj (dependnode n)))
           (final (System_create_attributes n) s)
         = Return (Some (__class__ n))).
Proof.
  intros Hr Hv Hfn Hf.
  pose proof (is_valid_lookup s _ r Hr Hv) as Hvalid.
  assert (nodes s !! fn_object (_fn n) = Some r) as Hr' by by rewrite Hfn.
  destruct (add_system_attr_run (r_name r) (__name__ (__class__ n)) s _ r Hf)
    as (s' & Hrun & Hnodes & _).
  assert (System_create_attributes n s = (Return (), s')) as Hrun'.
  { unfold System_create_attributes.
    by rewrite (run_bind_Return _ _ _ _ _
                  (Node_get_name_run n s r Hvalid Hr')). }
  unfold result, final. rewrite Hrun'. cbn [fst snd].
  assert (nodes s' !! dependnode n
          = Some (set_attr SYSTEM_TYPE_ATTR_NAME (__name__ (__class__ n)) r))
    as Hr2.
  { rewrite Hnodes. apply list_lookup_insert_eq. by eapply lookup_lt_Some. }
  split_and!; [done|done|].
  intros self.
  pose proof (get_system_class_tagged self s' _ r _ Hr2) as Hcls.
  unfold result in Hcls. split; [done|].
  intros Hreg. by rewrite Hcls, Hreg.
Qed.

Lemma create_attributes_promotes_witness :
  result (get_system_class
            (factory [Loaded (PyClass 2 "Rig" "transform" "grp") []])
            (RefObj 0))
    (final (System_create_attributes
              {| __class__ := PyClass 2 "Rig" "transform" "grp";
                 uuid := "uuid-"; dependnode := 0; _fn := MFnDagNode 0 |})
       duck_scene)
  = Return (Some (PyClass 2 "Rig" "transform" "grp")).
Proof.
  destruct (create_attributes_promotes
              {| __class__ := PyClass 2 "Rig" "transform" "grp";
                 uuid := "uuid-"; dependnode := 0; _fn := MFnDagNode 0 |}
              duck_scene
              {| r_uuid := "uuid-"; r_name := "duck"; r_type := "transform";
                 r_dag := true; r_parent := None;
                 r_attrs := {[ "system_type" := "System" ]};
                 r_valid := true |})
    as (_ & _ & Hcls).
  - vm_compute. reflexivity.
  - reflexivity.
  - reflexivity.
  - vm_compute. reflexivity.
  - destruct (Hcls (factory [Loaded (PyClass 2 "Rig" "transform" "grp") []]))
      as [_ Hreg].
    apply Hreg. vm_compute. reflexivity.
Defined.

(** ** Stale wrappers and the host *)

Lemma Node_set_namespace_stale n value s :
  is_valid s (dependnode n) = false →
  Node_set_namespace n value s = (Raise (stale_error n), s).
Proof.
  intros Hv. unfold Node_set_namespace.
  by rewrite (run_bind_Raise _ _ _ _ _ (Node_namespace_stale n s Hv)).
Qed.

Lemma Node_rename_stale n value s :
  is_valid s (dependnode n) = false →
  Node_rename n value s = (Raise (stale_error n), s).
Proof.
  intros Hv. unfold Node_rename.
  by rewrite (run_bind_Raise _ _ _ _ _ (Node_get_name_stale n s Hv)).
Qed.

(** X20.  A wrapper whose node is gone fails before the host is reached:
    renaming, assigning the namespace or the type, [create_attributes],
    [repr], [serialize] and [delete] all raise the error of [fn] and leave
    all of the scene, the log of host calls included, as it was. *)
Theorem stale_never_reaches_host (n : Node) (value : string) (s : Scene) :
  is_valid s (dependnode n) = false →
  Node_rename n value s = (Raise (stale_error n), s)
  ∧ Node_set_namespace n value s = (Raise (stale_error n), s)
  ∧ System_set_type n value s = (Raise (stale_error n), s)
  ∧ System_create_attributes n s = (Raise (stale_error n), s)
  ∧ Node_repr n s = (Raise (stale_error n), s)
  ∧ Node_serialize n s = (Raise (stale_error n), s)
  ∧ Node_delete n s = (Raise (stale_error n), s).
Proof.
  intros Hv. split_and!.
  - by apply Node_rename_stale.
  - by apply Node_set_namespace_stale.
  - unfold System_set_type.
    by rewrite (run_bind_Raise _ _ _ _ _ (Node_get_name_stale n s Hv)).
  - unfold System_create_attributes.
    by rewrite (run_bind_Raise _ _ _ _ _ (Node_get_name_stale n s Hv)).
  - by apply Node_repr_stale.
  - unfold Node_serialize.
    by rewrite (run_bind_Raise _ _ _ _ _ (Node_repr_stale n s Hv)).
  - by apply Node_delete_stale.
Qed.

Lemma stale_never_reaches_host_witness :
  Node_rename duck "goose" deleted_scene
  = (Raise (stale_error duck), deleted_scene).
Proof.
  apply (stale_never_reaches_host duck "goose" deleted_scene).
  vm_compute. reflexivity.
Defined.

(** ** [Node.rename] on a node in a namespace *)

Lemma Node_get_name_kept n s s' name :
  result (Node_get_name n) s = Return name → keeps s s' →
  ∃ name', result (Node_get_name n) s' = Return name'.
Proof.
  intros (Hv & r & Hr & _)%Node_get_name_Return Hk.
  destruct (Hk _ _ Hr) as (r' & Hr' & _).
  exists (r_name r'). unfold result.
  by rewrite (Node_get_name_run n s' r' (keeps_is_valid s s' _ Hk Hv) Hr').
Qed.

(** X21.  On a node in a namespace, [rename] first assigns the namespace
    of the new name (the empty one when the new name has none) through the
    setter of [namespace].  When the setter raises, [rename] stops there
    with the same exception: [cmds.rename] is not called.  When it
    returns and the new name is not empty, the name of the node can be
    read again and exactly one more call follows: [cmds.rename] with the
    name as read after the setter and the new name, to which the default
    name of the class is appended when it ends with [':'].  In
    particular, a new name in the namespace the node is in already makes
    the setter ask the host to move that namespace into itself. *)
Theorem rename_sets_namespace_first (n : Node) (value name : string)
    (s : Scene) :
  result (Node_get_name n) s = Return name →
  namespace_of name ≠ "" →
  (∀ e, result (Node_set_namespace n (namespace_of value)) s = Raise e →
     Node_rename n value s
     = (Raise e, final (Node_set_namespace n (namespace_of value)) s))
  ∧ (result (Node_set_namespace n (namespace_of value)) s = Return () →
     value ≠ "" →
     ∃ name',
       result (Node_get_name n)
         (final (Node_set_namespace n (namespace_of value)) s)
       = Return name'
       ∧ calls (final (Node_rename n value) s)
         = calls (final (Node_set_namespace n (namespace_of value)) s)
           ++ [Call_rename name'
                 (if endswith ":" value
                  then value +:+ DEFAULT_NAME (__class__ n) else value)])
  ∧ (namespace_of value = namespace_of name →
     namespace_of name ∈ namespaces s →
     calls (final (Node_set_namespace n (namespace_of value)) s)
     = calls s ++ [Call_namespace_ex (namespace_of name);
                   Call_namespace_mv (namespace_of name)
                     (namespace_of name)]).
Proof.
  intros Hname Hns.
  assert (str_contains ":" name = true) as Hsep.
  { destruct (str_contains ":" name) eqn:Hc; [done|].
    by rewrite (namespace_of_root name Hc) in Hns. }
  assert (match rsplit1 ":" value with
          | Some (ns, _) => Node_set_namespace n ns
          | None => Node_set_namespace n ""
          end = Node_set_namespace n (namespace_of value)) as Hset.
  { unfold namespace_of. by destruct (rsplit1 ":" value) as [[a b]|]. }
  destruct (Node_get_name_Return n s name Hname) as (Hvalid & _).
  assert (keeps s (final (Node_set_namespace n (namespace_of value)) s))
    as Hkeeps.
  { apply (maintains_final (keeps s) _ _ s
             (Node_set_namespace_maintains (keeps s) n
                (λ s' Hk, keeps_is_valid s s' _ Hk Hvalid) _)).
    reflexivity. }
  split_and!.
  - intros e He. unfold Node_rename.
    rewrite (run_bind_Return _ _ _ _ _
               (Node_get_name_at n s s name eq_refl Hname)).
    rewrite Hsep, Hset, run_bind. unfold result, final in *.
    destruct (Node_set_namespace n (namespace_of value) s) as [[[]|e'] s1];
      simpl in *; congruence.
  - intros Hret Hvalue.
    destruct (Node_get_name_kept n s _ name Hname Hkeeps) as [name' Hname'].
    exists name'. split; [done|].
    unfold Node_rename.
    unfold result, final in *.
    rewrite (run_bind_Return _ _ _ _ _
               (Node_get_name_at n s s name eq_refl Hname)).
    rewrite Hsep, Hset, run_bind.
    destruct (Node_set_namespace n (namespace_of value) s) as [[[]|e'] s1];
      simpl in *; [|done].
    destruct (str_last_is_Some value Hvalue) as [c Hc].
    unfold endswith. rewrite Hc, run_bind, run_ret, run_bind.
    rewrite (reads_result _ s1 (Node_get_name_reads n)).
    unfold result. rewrite Hname'.
    assert (bool_decide (Some c = Some ":"%char)
            = bool_decide (c = ":"%char))
      as -> by (apply bool_decide_ext; naive_solver).
    apply (logs_bind _ _ _ (logs_cmds_rename _ _) (λ _, logs_ret ())).
  - intros -> Hin.
    pose proof (Node_namespace_of_name n s name Hname) as Hread.
    unfold final, Node_set_namespace.
    rewrite (run_bind_Return _ _ _ _ _ (Hread s eq_refl)).
    rewrite !bool_decide_eq_true_2 by done.
    rewrite run_bind, cmds_namespace_ex_run.
    rewrite bool_decide_eq_true_2 by done.
    rewrite (logs_at _ _ _ (logs_cmds_namespace_mv _ _)). simpl.
    by rewrite <- app_assoc.
Qed.

Lemma rename_sets_namespace_first_witness :
  calls (final (Node_rename duck "rig:goose") ns_scene)
  = calls ns_scene
    ++ [Call_namespace_ex "rig"; Call_namespace_ren "ns" "rig" None;
        Call_rename "rig:duck" "rig:goose"].
Proof.
  destruct (rename_sets_namespace_first duck "rig:goose" "ns:duck" ns_scene)
    as (_ & Hcalls & _).
  - vm_compute. reflexivity.
  - vm_compute. discriminate.
  - destruct Hcalls as (name' & Hname' & ->).
    + vm_compute. reflexivity.
    + discriminate.
    + vm_compute in Hname'. injection Hname' as <-.
      vm_compute. reflexivity.
Defined.
